(** * Linear slip-weakening friction: a shallow embedding of the SeisSol
      dynamic-rupture friction core

    Sources embedded here:
    - [LinearSlipWeakening.h]: the class template [LinearSlipWeakeningLaw] and
      the [NoSpecialization] policy;
    - [DynamicRupture/FrictionLaws/FrictionSolverCommon.h]: the static
      functions of [struct Common].

    Conventions of the embedding.
    - The C++ type [real] is read as the field of real numbers: every
      statement below is about the arithmetic the code writes down, not
      about its rounding.
    - A member array of rows of [numPaddedPoints] values, one row per face,
      is a function from a face index and a point index to a value; an
      assignment [x[f][p] = v] is a functional update [store2].
    - A flat buffer handed to a generated kernel is a list of its fixed
      length, written by index with [listStore].
    - A loop [for (i = 0; i < n; i++)] is [forLoop n body]: the body indexed
      by [i] applied in ascending order to the threaded state.
    - The compile-time constants of [misc::] and [tensor::] and the generated
      tensor kernels are not part of the embedded sources; they are section
      variables, so every result holds for each value they may take. *)

From Stdlib Require Import Reals Lra Lia List Arith Bool Psatz.
From Stdlib Require String.
Import ListNotations.
Import String.StringSyntax.
Delimit Scope string_scope with string.

Open Scope R_scope.

(** ** Arrays and loops *)

(** The C++ type [real]. *)
Abbreviation real := R.

Definition store1 {A : Type} (a : nat -> A) (i : nat) (v : A) : nat -> A :=
  fun j => if Nat.eqb j i then v else a j.

Definition store2 {A : Type} (a : nat -> nat -> A) (f p : nat) (v : A)
  : nat -> nat -> A :=
  fun g => if Nat.eqb g f then store1 (a g) p v else a g.

(** [for (unsigned i = 0; i < n; i++) body(i)] on a threaded state. *)
Fixpoint forLoop {St : Type} (n : nat) (body : nat -> St -> St) (s : St) : St :=
  match n with
  | O => s
  | S k => body k (forLoop k body s)
  end.

(** ** Data model *)

(** The two impedance entries the friction law reads from
    [ImpedancesAndEta]. *)
Record ImpedancesAndEta : Type := mkImpedancesAndEta {
  etaS : real;
  invEtaS : real
}.

(** [FaultStresses]: per time sub-interval, per point (the fluid pressure of
    the poroelastic build is left out). *)
Module FaultStresses.

Record t : Type := mk {
  normalStress : nat -> nat -> real;
  traction1 : nat -> nat -> real;
  traction2 : nat -> nat -> real
}.

End FaultStresses.

(** [TractionResults]: per time sub-interval, per point. *)
Module TractionResults.

Record t : Type := mk {
  traction1 : nat -> nat -> real;
  traction2 : nat -> nat -> real
}.

Definition set_traction1 (v : nat -> nat -> real) (r : t) : t :=
  mk v (traction2 r).

Definition set_traction2 (v : nat -> nat -> real) (r : t) : t :=
  mk (traction1 r) v.

End TractionResults.

(** The five values [strengthHook] receives by reference. *)
Record StrengthHookArgs : Type := mkStrengthHookArgs {
  h_strength : real;
  h_localSlipRate : real;
  h_sigma : real;
  h_mu : real;
  h_deltaT : real
}.

(** The interface a specialization offers to [LinearSlipWeakeningLaw]
    (the template parameter [SpecializationT]).  A hook may change its own
    object and everything it receives by reference. *)
Class SpecializationT (SpecT : Type) : Type := {
  stateVariableHook :
    SpecT -> (nat -> real) -> real -> nat -> SpecT * (nat -> real);
  strengthHook :
    SpecT -> StrengthHookArgs -> nat -> nat -> SpecT * StrengthHookArgs
}.

(** [class NoSpecialization]: both hooks have an empty body. *)
Inductive NoSpecialization : Type := mkNoSpecialization.

#[export] Instance NoSpecialization_SpecializationT
  : SpecializationT NoSpecialization := {
  stateVariableHook := fun s stateVariable _ _ => (s, stateVariable);
  strengthHook := fun s args _ _ => (s, args)
}.

(** The members of [LinearSlipWeakeningLaw] and of its base classes that the
    embedded functions read or write. *)
Record LinearSlipWeakeningLaw (SpecT : Type) : Type := mkLaw {
  initialStressInFaultCS : nat -> nat -> nat -> real;
  impAndEta : nat -> ImpedancesAndEta;
  deltaT : nat -> real;
  mFullUpdateTime : real;
  mu : nat -> nat -> real;
  accumulatedSlipMagnitude : nat -> nat -> real;
  slip1 : nat -> nat -> real;
  slip2 : nat -> nat -> real;
  slipRateMagnitude : nat -> nat -> real;
  slipRate1 : nat -> nat -> real;
  slipRate2 : nat -> nat -> real;
  traction1 : nat -> nat -> real;
  traction2 : nat -> nat -> real;
  ruptureTimePending : nat -> nat -> bool;
  ruptureTime : nat -> nat -> real;
  dynStressTimePending : nat -> nat -> bool;
  dynStressTime : nat -> nat -> real;
  dC : nat -> nat -> real;
  muS : nat -> nat -> real;
  muD : nat -> nat -> real;
  cohesion : nat -> nat -> real;
  specialization : SpecT
}.

Arguments initialStressInFaultCS {SpecT} _.
Arguments impAndEta {SpecT} _.
Arguments deltaT {SpecT} _.
Arguments mFullUpdateTime {SpecT} _.
Arguments mu {SpecT} _.
Arguments accumulatedSlipMagnitude {SpecT} _.
Arguments slip1 {SpecT} _.
Arguments slip2 {SpecT} _.
Arguments slipRateMagnitude {SpecT} _.
Arguments slipRate1 {SpecT} _.
Arguments slipRate2 {SpecT} _.
Arguments traction1 {SpecT} _.
Arguments traction2 {SpecT} _.
Arguments ruptureTimePending {SpecT} _.
Arguments ruptureTime {SpecT} _.
Arguments dynStressTimePending {SpecT} _.
Arguments dynStressTime {SpecT} _.
Arguments dC {SpecT} _.
Arguments muS {SpecT} _.
Arguments muD {SpecT} _.
Arguments cohesion {SpecT} _.
Arguments specialization {SpecT} _.
Arguments mkLaw {SpecT}.

Definition set_deltaT {SpecT : Type} (v : nat -> real)
    (st : LinearSlipWeakeningLaw SpecT) : LinearSlipWeakeningLaw SpecT :=
  mkLaw (initialStressInFaultCS st) (impAndEta st) v (mFullUpdateTime st)
    (mu st) (accumulatedSlipMagnitude st) (slip1 st) (slip2 st)
    (slipRateMagnitude st) (slipRate1 st) (slipRate2 st) (traction1 st)
    (traction2 st) (ruptureTimePending st) (ruptureTime st)
    (dynStressTimePending st) (dynStressTime st) (dC st) (muS st) (muD st)
    (cohesion st) (specialization st).

Definition set_mFullUpdateTime {SpecT : Type} (v : real)
    (st : LinearSlipWeakeningLaw SpecT) : LinearSlipWeakeningLaw SpecT :=
  mkLaw (initialStressInFaultCS st) (impAndEta st) (deltaT st) v (mu st)
    (accumulatedSlipMagnitude st) (slip1 st) (slip2 st) (slipRateMagnitude st)
    (slipRate1 st) (slipRate2 st) (traction1 st) (traction2 st)
    (ruptureTimePending st) (ruptureTime st) (dynStressTimePending st)
    (dynStressTime st) (dC st) (muS st) (muD st) (cohesion st)
    (specialization st).

Definition set_mu {SpecT : Type} (v : nat -> nat -> real)
    (st : LinearSlipWeakeningLaw SpecT) : LinearSlipWeakeningLaw SpecT :=
  mkLaw (initialStressInFaultCS st) (impAndEta st) (deltaT st)
    (mFullUpdateTime st) v (accumulatedSlipMagnitude st) (slip1 st) (slip2 st)
    (slipRateMagnitude st) (slipRate1 st) (slipRate2 st) (traction1 st)
    (traction2 st) (ruptureTimePending st) (ruptureTime st)
    (dynStressTimePending st) (dynStressTime st) (dC st) (muS st) (muD st)
    (cohesion st) (specialization st).

Definition set_accumulatedSlipMagnitude {SpecT : Type} (v : nat -> nat -> real)
    (st : LinearSlipWeakeningLaw SpecT) : LinearSlipWeakeningLaw SpecT :=
  mkLaw (initialStressInFaultCS st) (impAndEta st) (deltaT st)
    (mFullUpdateTime st) (mu st) v (slip1 st) (slip2 st)
    (slipRateMagnitude st) (slipRate1 st) (slipRate2 st) (traction1 st)
    (traction2 st) (ruptureTimePending st) (ruptureTime st)
    (dynStressTimePending st) (dynStressTime st) (dC st) (muS st) (muD st)
    (cohesion st) (specialization st).

Definition set_slip1 {SpecT : Type} (v : nat -> nat -> real)
    (st : LinearSlipWeakeningLaw SpecT) : LinearSlipWeakeningLaw SpecT :=
  mkLaw (initialStressInFaultCS st) (impAndEta st) (deltaT st)
    (mFullUpdateTime st) (mu st) (accumulatedSlipMagnitude st) v (slip2 st)
    (slipRateMagnitude st) (slipRate1 st) (slipRate2 st) (traction1 st)
    (traction2 st) (ruptureTimePending st) (ruptureTime st)
    (dynStressTimePending st) (dynStressTime st) (dC st) (muS st) (muD st)
    (cohesion st) (specialization st).

Definition set_slip2 {SpecT : Type} (v : nat -> nat -> real)
    (st : LinearSlipWeakeningLaw SpecT) : LinearSlipWeakeningLaw SpecT :=
  mkLaw (initialStressInFaultCS st) (impAndEta st) (deltaT st)
    (mFullUpdateTime st) (mu st) (accumulatedSlipMagnitude st) (slip1 st) v
    (slipRateMagnitude st) (slipRate1 st) (slipRate2 st) (traction1 st)
    (traction2 st) (ruptureTimePending st) (ruptureTime st)
    (dynStressTimePending st) (dynStressTime st) (dC st) (muS st) (muD st)
    (cohesion st) (specialization st).

Definition set_slipRateMagnitude {SpecT : Type} (v : nat -> nat -> real)
    (st : LinearSlipWeakeningLaw SpecT) : LinearSlipWeakeningLaw SpecT :=
  mkLaw (initialStressInFaultCS st) (impAndEta st) (deltaT st)
    (mFullUpdateTime st) (mu st) (accumulatedSlipMagnitude st) (slip1 st)
    (slip2 st) v (slipRate1 st) (slipRate2 st) (traction1 st) (traction2 st)
    (ruptureTimePending st) (ruptureTime st) (dynStressTimePending st)
    (dynStressTime st) (dC st) (muS st) (muD st) (cohesion st)
    (specialization st).

Definition set_slipRate1 {SpecT : Type} (v : nat -> nat -> real)
    (st : LinearSlipWeakeningLaw SpecT) : LinearSlipWeakeningLaw SpecT :=
  mkLaw (initialStressInFaultCS st) (impAndEta st) (deltaT st)
    (mFullUpdateTime st) (mu st) (accumulatedSlipMagnitude st) (slip1 st)
    (slip2 st) (slipRateMagnitude st) v (slipRate2 st) (traction1 st)
    (traction2 st) (ruptureTimePending st) (ruptureTime st)
    (dynStressTimePending st) (dynStressTime st) (dC st) (muS st) (muD st)
    (cohesion st) (specialization st).

Definition set_slipRate2 {SpecT : Type} (v : nat -> nat -> real)
    (st : LinearSlipWeakeningLaw SpecT) : LinearSlipWeakeningLaw SpecT :=
  mkLaw (initialStressInFaultCS st) (impAndEta st) (deltaT st)
    (mFullUpdateTime st) (mu st) (accumulatedSlipMagnitude st) (slip1 st)
    (slip2 st) (slipRateMagnitude st) (slipRate1 st) v (traction1 st)
    (traction2 st) (ruptureTimePending st) (ruptureTime st)
    (dynStressTimePending st) (dynStressTime st) (dC st) (muS st) (muD st)
    (cohesion st) (specialization st).

Definition set_traction1 {SpecT : Type} (v : nat -> nat -> real)
    (st : LinearSlipWeakeningLaw SpecT) : LinearSlipWeakeningLaw SpecT :=
  mkLaw (initialStressInFaultCS st) (impAndEta st) (deltaT st)
    (mFullUpdateTime st) (mu st) (accumulatedSlipMagnitude st) (slip1 st)
    (slip2 st) (slipRateMagnitude st) (slipRate1 st) (slipRate2 st) v
    (traction2 st) (ruptureTimePending st) (ruptureTime st)
    (dynStressTimePending st) (dynStressTime st) (dC st) (muS st) (muD st)
    (cohesion st) (specialization st).

Definition set_traction2 {SpecT : Type} (v : nat -> nat -> real)
    (st : LinearSlipWeakeningLaw SpecT) : LinearSlipWeakeningLaw SpecT :=
  mkLaw (initialStressInFaultCS st) (impAndEta st) (deltaT st)
    (mFullUpdateTime st) (mu st) (accumulatedSlipMagnitude st) (slip1 st)
    (slip2 st) (slipRateMagnitude st) (slipRate1 st) (slipRate2 st)
    (traction1 st) v (ruptureTimePending st) (ruptureTime st)
    (dynStressTimePending st) (dynStressTime st) (dC st) (muS st) (muD st)
    (cohesion st) (specialization st).

Definition set_ruptureTimePending {SpecT : Type} (v : nat -> nat -> bool)
    (st : LinearSlipWeakeningLaw SpecT) : LinearSlipWeakeningLaw SpecT :=
  mkLaw (initialStressInFaultCS st) (impAndEta st) (deltaT st)
    (mFullUpdateTime st) (mu st) (accumulatedSlipMagnitude st) (slip1 st)
    (slip2 st) (slipRateMagnitude st) (slipRate1 st) (slipRate2 st)
    (traction1 st) (traction2 st) v (ruptureTime st) (dynStressTimePending st)
    (dynStressTime st) (dC st) (muS st) (muD st) (cohesion st)
    (specialization st).

Definition set_ruptureTime {SpecT : Type} (v : nat -> nat -> real)
    (st : LinearSlipWeakeningLaw SpecT) : LinearSlipWeakeningLaw SpecT :=
  mkLaw (initialStressInFaultCS st) (impAndEta st) (deltaT st)
    (mFullUpdateTime st) (mu st) (accumulatedSlipMagnitude st) (slip1 st)
    (slip2 st) (slipRateMagnitude st) (slipRate1 st) (slipRate2 st)
    (traction1 st) (traction2 st) (ruptureTimePending st) v
    (dynStressTimePending st) (dynStressTime st) (dC st) (muS st) (muD st)
    (cohesion st) (specialization st).

Definition set_dynStressTimePending {SpecT : Type} (v : nat -> nat -> bool)
    (st : LinearSlipWeakeningLaw SpecT) : LinearSlipWeakeningLaw SpecT :=
  mkLaw (initialStressInFaultCS st) (impAndEta st) (deltaT st)
    (mFullUpdateTime st) (mu st) (accumulatedSlipMagnitude st) (slip1 st)
    (slip2 st) (slipRateMagnitude st) (slipRate1 st) (slipRate2 st)
    (traction1 st) (traction2 st) (ruptureTimePending st) (ruptureTime st) v
    (dynStressTime st) (dC st) (muS st) (muD st) (cohesion st)
    (specialization st).

Definition set_dynStressTime {SpecT : Type} (v : nat -> nat -> real)
    (st : LinearSlipWeakeningLaw SpecT) : LinearSlipWeakeningLaw SpecT :=
  mkLaw (initialStressInFaultCS st) (impAndEta st) (deltaT st)
    (mFullUpdateTime st) (mu st) (accumulatedSlipMagnitude st) (slip1 st)
    (slip2 st) (slipRateMagnitude st) (slipRate1 st) (slipRate2 st)
    (traction1 st) (traction2 st) (ruptureTimePending st) (ruptureTime st)
    (dynStressTimePending st) v (dC st) (muS st) (muD st) (cohesion st)
    (specialization st).

Definition set_specialization {SpecT : Type} (v : SpecT)
    (st : LinearSlipWeakeningLaw SpecT) : LinearSlipWeakeningLaw SpecT :=
  mkLaw (initialStressInFaultCS st) (impAndEta st) (deltaT st)
    (mFullUpdateTime st) (mu st) (accumulatedSlipMagnitude st) (slip1 st)
    (slip2 st) (slipRateMagnitude st) (slipRate1 st) (slipRate2 st)
    (traction1 st) (traction2 st) (ruptureTimePending st) (ruptureTime st)
    (dynStressTimePending st) (dynStressTime st) (dC st) (muS st) (muD st)
    (cohesion st) v.

(** Modelled from the spec: [misc::magnitude] (declared in Misc.h, which is
    not among the embedded sources), the Euclidean norm
    [|T| = sqrt(T1^2 + T2^2)]. *)
Definition magnitude (x y : real) : real := sqrt (x * x + y * y).

(** The local [divisor] of [calcSlipRateAndTraction]. *)
Definition divisor (strength_p etaS_f slipRateMagnitude_p : real) : real :=
  strength_p + etaS_f * slipRateMagnitude_p.

(** Comparisons of [real] values as the conditions of [if] statements. *)
Definition Rltb (x y : real) : bool := if Rlt_dec x y then true else false.
Definition Rgtb (x y : real) : bool := if Rgt_dec x y then true else false.
Definition Rgeb (x y : real) : bool := if Rge_dec x y then true else false.

(** [static constexpr real u0 = 10e-14]. *)
Definition u0 : real := 10 / 10 ^ 14.

Section Law.

(** [misc::numPaddedPoints]. *)
Variable numPaddedPoints : nat.

(** [init::resample::Values], the matrix of the resampling kernel. *)
Variable resample : nat -> nat -> real.

Context {SpecT : Type} `{SpecializationT SpecT}.

Local Abbreviation Law := (LinearSlipWeakeningLaw SpecT).

(** *** [calcSlipRateAndTraction] *)

Definition calcSlipRateAndTraction_body
    (faultStresses : FaultStresses.t) (strength : nat -> real)
    (timeIndex ltsFace : nat) (pointIndex : nat)
    (s : Law * TractionResults.t) : Law * TractionResults.t :=
  let '(this, tractionResults) := s in
  let totalTraction1 :=
    initialStressInFaultCS this ltsFace pointIndex 3%nat +
    FaultStresses.traction1 faultStresses timeIndex pointIndex in
  let totalTraction2 :=
    initialStressInFaultCS this ltsFace pointIndex 5%nat +
    FaultStresses.traction2 faultStresses timeIndex pointIndex in
  let absoluteTraction := magnitude totalTraction1 totalTraction2 in
  let this :=
    set_slipRateMagnitude
      (store2 (slipRateMagnitude this) ltsFace pointIndex
         (Rmax 0 ((absoluteTraction - strength pointIndex) *
                  invEtaS (impAndEta this ltsFace)))) this in
  let divisor :=
    divisor (strength pointIndex) (etaS (impAndEta this ltsFace))
      (slipRateMagnitude this ltsFace pointIndex) in
  let this :=
    set_slipRate1
      (store2 (slipRate1 this) ltsFace pointIndex
         (slipRateMagnitude this ltsFace pointIndex * totalTraction1 / divisor))
      this in
  let this :=
    set_slipRate2
      (store2 (slipRate2 this) ltsFace pointIndex
         (slipRateMagnitude this ltsFace pointIndex * totalTraction2 / divisor))
      this in
  let tractionResults :=
    TractionResults.set_traction1
      (store2 (TractionResults.traction1 tractionResults) timeIndex pointIndex
         (FaultStresses.traction1 faultStresses timeIndex pointIndex -
          etaS (impAndEta this ltsFace) * slipRate1 this ltsFace pointIndex))
      tractionResults in
  let tractionResults :=
    TractionResults.set_traction2
      (store2 (TractionResults.traction2 tractionResults) timeIndex pointIndex
         (FaultStresses.traction2 faultStresses timeIndex pointIndex -
          etaS (impAndEta this ltsFace) * slipRate2 this ltsFace pointIndex))
      tractionResults in
  let this :=
    set_traction1
      (store2 (traction1 this) ltsFace pointIndex
         (TractionResults.traction1 tractionResults timeIndex pointIndex))
      this in
  let this :=
    set_traction2
      (store2 (traction2 this) ltsFace pointIndex
         (TractionResults.traction2 tractionResults timeIndex pointIndex))
      this in
  let this :=
    set_slip1
      (store2 (slip1 this) ltsFace pointIndex
         (slip1 this ltsFace pointIndex +
          slipRate1 this ltsFace pointIndex * deltaT this timeIndex)) this in
  let this :=
    set_slip2
      (store2 (slip2 this) ltsFace pointIndex
         (slip2 this ltsFace pointIndex +
          slipRate2 this ltsFace pointIndex * deltaT this timeIndex)) this in
  (this, tractionResults).

Definition calcSlipRateAndTraction
    (faultStresses : FaultStresses.t) (tractionResults : TractionResults.t)
    (strength : nat -> real) (timeIndex ltsFace : nat) (this : Law)
  : Law * TractionResults.t :=
  forLoop numPaddedPoints
    (calcSlipRateAndTraction_body faultStresses strength timeIndex ltsFace)
    (this, tractionResults).

(** *** [frictionFunctionHook] *)

Definition frictionFunctionHook_body
    (stateVariable : nat -> real) (ltsFace : nat) (pointIndex : nat)
    (this : Law) : Law :=
  set_mu
    (store2 (mu this) ltsFace pointIndex
       (muS this ltsFace pointIndex -
        (muS this ltsFace pointIndex - muD this ltsFace pointIndex) *
        stateVariable pointIndex)) this.

Definition frictionFunctionHook
    (stateVariable : nat -> real) (ltsFace : nat) (this : Law) : Law :=
  forLoop numPaddedPoints (frictionFunctionHook_body stateVariable ltsFace) this.

(** *** [instantaneousHealing] *)

Definition instantaneousHealing_body
    (ltsFace : nat) (pointIndex : nat) (this : Law) : Law :=
  if Rltb (slipRateMagnitude this ltsFace pointIndex) u0 then
    let this :=
      set_mu (store2 (mu this) ltsFace pointIndex (muS this ltsFace pointIndex))
        this in
    set_accumulatedSlipMagnitude
      (store2 (accumulatedSlipMagnitude this) ltsFace pointIndex 0) this
  else this.

Definition instantaneousHealing (ltsFace : nat) (this : Law) : Law :=
  forLoop numPaddedPoints (instantaneousHealing_body ltsFace) this.

(** *** [saveDynamicStressOutput] *)

Definition saveDynamicStressOutput_body
    (ltsFace : nat) (pointIndex : nat) (this : Law) : Law :=
  if dynStressTimePending this ltsFace pointIndex then
    if Rgeb (Rabs (accumulatedSlipMagnitude this ltsFace pointIndex))
            (dC this ltsFace pointIndex) then
      let this :=
        set_dynStressTime
          (store2 (dynStressTime this) ltsFace pointIndex (mFullUpdateTime this))
          this in
      set_dynStressTimePending
        (store2 (dynStressTimePending this) ltsFace pointIndex false) this
    else this
  else this.

Definition saveDynamicStressOutput (ltsFace : nat) (this : Law) : Law :=
  forLoop numPaddedPoints (saveDynamicStressOutput_body ltsFace) this.

(** *** [calcStrengthHook] *)

Definition calcStrengthHook_body
    (faultStresses : FaultStresses.t) (timeIndex ltsFace : nat)
    (pointIndex : nat) (s : Law * (nat -> real)) : Law * (nat -> real) :=
  let '(this, strength) := s in
  let totalNormalStress :=
    initialStressInFaultCS this ltsFace pointIndex 0%nat +
    FaultStresses.normalStress faultStresses timeIndex pointIndex in
  let strength :=
    store1 strength pointIndex
      (- cohesion this ltsFace pointIndex -
       mu this ltsFace pointIndex * Rmin totalNormalStress 0) in
  let '(spec, args) :=
    strengthHook (specialization this)
      (mkStrengthHookArgs (strength pointIndex)
         (slipRateMagnitude this ltsFace pointIndex)
         totalNormalStress
         (mu this ltsFace pointIndex)
         (deltaT this timeIndex))
      ltsFace pointIndex in
  let strength := store1 strength pointIndex (h_strength args) in
  let this :=
    set_slipRateMagnitude
      (store2 (slipRateMagnitude this) ltsFace pointIndex (h_localSlipRate args))
      this in
  let this := set_mu (store2 (mu this) ltsFace pointIndex (h_mu args)) this in
  let this := set_deltaT (store1 (deltaT this) timeIndex (h_deltaT args)) this in
  (set_specialization spec this, strength).

Definition calcStrengthHook
    (faultStresses : FaultStresses.t) (strength : nat -> real)
    (timeIndex ltsFace : nat) (this : Law) : Law * (nat -> real) :=
  forLoop numPaddedPoints (calcStrengthHook_body faultStresses timeIndex ltsFace)
    (this, strength).

(** *** [calcStateVariableHook] *)

(** Modelled from the spec: [kernel::resampleParameter::execute] (generated
    code, not among the embedded sources), the dense matrix-vector product
    [resampledQ(i) = sum over j of resample(i,j) * originalQ(j)]. *)
Definition resampleParameter_execute (originalQ : nat -> real) : nat -> real :=
  fun i =>
    forLoop numPaddedPoints (fun j acc => acc + resample i j * originalQ j) 0.

Definition calcStateVariableHook_body
    (resampledSlipRate : nat -> real) (timeIndex ltsFace : nat)
    (pointIndex : nat) (s : Law * (nat -> real)) : Law * (nat -> real) :=
  let '(this, stateVariable) := s in
  let this :=
    set_accumulatedSlipMagnitude
      (store2 (accumulatedSlipMagnitude this) ltsFace pointIndex
         (accumulatedSlipMagnitude this ltsFace pointIndex +
          resampledSlipRate pointIndex * deltaT this timeIndex)) this in
  let stateVariable :=
    store1 stateVariable pointIndex
      (Rmin (Rabs (accumulatedSlipMagnitude this ltsFace pointIndex) /
             dC this ltsFace pointIndex) 1) in
  (this, stateVariable).

Definition calcStateVariableHook
    (stateVariable : nat -> real) (timeIndex ltsFace : nat) (this : Law)
  : Law * (nat -> real) :=
  let resampledSlipRate :=
    resampleParameter_execute (slipRateMagnitude this ltsFace) in
  let '(this, stateVariable) :=
    forLoop numPaddedPoints
      (calcStateVariableHook_body resampledSlipRate timeIndex ltsFace)
      (this, stateVariable) in
  let '(spec, stateVariable) :=
    stateVariableHook (specialization this) stateVariable
      (mFullUpdateTime this + deltaT this timeIndex) ltsFace in
  (set_specialization spec this, stateVariable).

(** *** [updateFrictionAndSlip] *)

Definition updateFrictionAndSlip
    (faultStresses : FaultStresses.t) (tractionResults : TractionResults.t)
    (stateVariableBuffer strengthBuffer : nat -> real)
    (ltsFace timeIndex : nat) (this : Law)
  : Law * TractionResults.t * (nat -> real) * (nat -> real) :=
  let '(this, strengthBuffer) :=
    calcStrengthHook faultStresses strengthBuffer timeIndex ltsFace this in
  let '(this, tractionResults) :=
    calcSlipRateAndTraction faultStresses tractionResults strengthBuffer
      timeIndex ltsFace this in
  let '(this, stateVariableBuffer) :=
    calcStateVariableHook stateVariableBuffer timeIndex ltsFace this in
  let this := frictionFunctionHook stateVariableBuffer ltsFace this in
  (this, tractionResults, stateVariableBuffer, strengthBuffer).

End Law.

(** ** [struct Common] of FrictionSolverCommon.h *)

(** [buffer[i] = v] on a flat buffer; an index past the end, which the C++
    code never produces, leaves the list as it is. *)
Fixpoint listStore {A : Type} (l : list A) (i : nat) (v : A) : list A :=
  match l, i with
  | [], _ => []
  | _ :: t, O => v :: t
  | h :: t, S k => h :: listStore t k v
  end.

(** The three flat matrices of [ImpedanceMatrices]. *)
Record ImpedanceMatrices : Type := mkImpedanceMatrices {
  impedance : list real;
  impedanceNeig : list real;
  eta : list real
}.

Module Common.

Section Common.

(** [misc::numPaddedPoints], [misc::numberOfBoundaryGaussPoints],
    [CONVERGENCE_ORDER] and [tensor::QInterpolated::size()]. *)
Variable numPaddedPoints : nat.
Variable numberOfBoundaryGaussPoints : nat.
Variable CONVERGENCE_ORDER : nat.
Variable QInterpolated_size : nat.

(** The generated kernels [computeImposedStateM] and [computeImposedStateP]:
    [execute] reads the impedance matrix, [theta], the interpolated degrees
    of freedom of one side, the weight and the current [imposedState], and
    leaves the new [imposedState]. *)
Variable computeImposedStateM_execute :
  list real -> (nat -> nat -> real) -> list real -> real -> list real -> list real.
Variable computeImposedStateP_execute :
  list real -> (nat -> nat -> real) -> list real -> real -> list real -> list real.

(** *** [postcomputeImposedStateFromNewStress] *)

(** The first loop: [imposedStatePlus[i] = 0; imposedStateMinus[i] = 0]. *)
Definition zeroImposedState_body (i : nat) (s : list real * list real)
  : list real * list real :=
  let '(imposedStatePlus, imposedStateMinus) := s in
  (listStore imposedStatePlus i 0, listStore imposedStateMinus i 0).

(** The copy of one sub-interval into [thetaView]. *)
Definition copyTheta_body
    (faultStresses : FaultStresses.t) (tractionResults : TractionResults.t)
    (o : nat) (i : nat) (thetaView : nat -> nat -> real) : nat -> nat -> real :=
  let thetaView :=
    store2 thetaView i 0%nat (FaultStresses.normalStress faultStresses o i) in
  let thetaView :=
    store2 thetaView i 1%nat (TractionResults.traction1 tractionResults o i) in
  store2 thetaView i 2%nat (TractionResults.traction2 tractionResults o i).

(** The loop over the time sub-intervals; its state is [thetaBuffer] and the
    two output buffers. *)
Definition postcompute_body
    (faultStresses : FaultStresses.t) (tractionResults : TractionResults.t)
    (impedanceMatrices : ImpedanceMatrices)
    (qInterpolatedPlus qInterpolatedMinus : nat -> list real)
    (timeWeights : nat -> real) (o : nat)
    (s : (nat -> nat -> real) * list real * list real)
  : (nat -> nat -> real) * list real * list real :=
  let '(thetaView, imposedStatePlus, imposedStateMinus) := s in
  let weight := timeWeights o in
  let thetaView :=
    forLoop numPaddedPoints (copyTheta_body faultStresses tractionResults o)
      thetaView in
  let imposedStateMinus :=
    computeImposedStateM_execute (impedance impedanceMatrices) thetaView
      (qInterpolatedMinus o) weight imposedStateMinus in
  let imposedStatePlus :=
    computeImposedStateP_execute (impedanceNeig impedanceMatrices) thetaView
      (qInterpolatedPlus o) weight imposedStatePlus in
  (thetaView, imposedStatePlus, imposedStateMinus).

Definition postcomputeImposedStateFromNewStress
    (faultStresses : FaultStresses.t) (tractionResults : TractionResults.t)
    (impedanceMatrices : ImpedanceMatrices)
    (imposedStatePlus imposedStateMinus : list real)
    (qInterpolatedPlus qInterpolatedMinus : nat -> list real)
    (timeWeights : nat -> real) : list real * list real :=
  let '(imposedStatePlus, imposedStateMinus) :=
    forLoop QInterpolated_size zeroImposedState_body
      (imposedStatePlus, imposedStateMinus) in
  let thetaBuffer : nat -> nat -> real := fun _ _ => 0 in
  let '(_, imposedStatePlus, imposedStateMinus) :=
    forLoop CONVERGENCE_ORDER
      (postcompute_body faultStresses tractionResults impedanceMatrices
         qInterpolatedPlus qInterpolatedMinus timeWeights)
      (thetaBuffer, imposedStatePlus, imposedStateMinus) in
  (imposedStatePlus, imposedStateMinus).

(** *** [precomputeStressFromQInterpolated] *)

(** The generated kernel [computeTheta]: [execute] reads the two impedance
    matrices, [eta], the interpolated degrees of freedom of both sides and
    the current [theta], and leaves the new [theta]. *)
Variable computeTheta_execute :
  list real -> list real -> list real -> list real -> list real ->
  (nat -> nat -> real) -> nat -> nat -> real.

(** The copy of [thetaView] into one sub-interval of [faultStresses]. *)
Definition copyFaultStresses_body
    (thetaView : nat -> nat -> real) (o : nat) (i : nat)
    (faultStresses : FaultStresses.t) : FaultStresses.t :=
  let faultStresses :=
    FaultStresses.mk
      (store2 (FaultStresses.normalStress faultStresses) o i
         (thetaView i 0%nat))
      (FaultStresses.traction1 faultStresses)
      (FaultStresses.traction2 faultStresses) in
  let faultStresses :=
    FaultStresses.mk
      (FaultStresses.normalStress faultStresses)
      (store2 (FaultStresses.traction1 faultStresses) o i
         (thetaView i 1%nat))
      (FaultStresses.traction2 faultStresses) in
  FaultStresses.mk
    (FaultStresses.normalStress faultStresses)
    (FaultStresses.traction1 faultStresses)
    (store2 (FaultStresses.traction2 faultStresses) o i (thetaView i 2%nat)).

(** The loop over the time sub-intervals; its state is [faultStresses] and
    [thetaBuffer]. *)
Definition precompute_body
    (impedanceMatrices : ImpedanceMatrices)
    (qInterpolatedPlus qInterpolatedMinus : nat -> list real) (o : nat)
    (s : FaultStresses.t * (nat -> nat -> real))
  : FaultStresses.t * (nat -> nat -> real) :=
  let '(faultStresses, thetaBuffer) := s in
  let thetaBuffer :=
    computeTheta_execute (impedanceNeig impedanceMatrices)
      (impedance impedanceMatrices) (eta impedanceMatrices)
      (qInterpolatedPlus o) (qInterpolatedMinus o) thetaBuffer in
  let faultStresses :=
    forLoop numPaddedPoints (copyFaultStresses_body thetaBuffer o)
      faultStresses in
  (faultStresses, thetaBuffer).

Definition precomputeStressFromQInterpolated
    (faultStresses : FaultStresses.t) (impedanceMatrices : ImpedanceMatrices)
    (qInterpolatedPlus qInterpolatedMinus : nat -> list real)
  : FaultStresses.t :=
  let thetaBuffer : nat -> nat -> real := fun _ _ => 0 in
  fst (forLoop CONVERGENCE_ORDER
         (precompute_body impedanceMatrices qInterpolatedPlus
            qInterpolatedMinus)
         (faultStresses, thetaBuffer)).

(** *** [saveRuptureFrontOutput] *)

(** [constexpr real ruptureFrontThreshold = 0.001]. *)
Definition ruptureFrontThreshold : real := 1 / 1000.

Definition saveRuptureFrontOutput_body
    (slipRateMagnitude : nat -> real) (fullUpdateTime : real)
    (pointIndex : nat) (s : (nat -> bool) * (nat -> real))
  : (nat -> bool) * (nat -> real) :=
  let '(ruptureTimePending, ruptureTime) := s in
  if ruptureTimePending pointIndex then
    if Rgtb (slipRateMagnitude pointIndex) ruptureFrontThreshold then
      let ruptureTime := store1 ruptureTime pointIndex fullUpdateTime in
      (store1 ruptureTimePending pointIndex false, ruptureTime)
    else s
  else s.

Definition saveRuptureFrontOutput
    (ruptureTimePending : nat -> bool) (ruptureTime : nat -> real)
    (slipRateMagnitude : nat -> real) (fullUpdateTime : real)
  : (nat -> bool) * (nat -> real) :=
  forLoop numPaddedPoints
    (saveRuptureFrontOutput_body slipRateMagnitude fullUpdateTime)
    (ruptureTimePending, ruptureTime).

(** *** [savePeakSlipRateOutput] *)

Definition savePeakSlipRateOutput
    (slipRateMagnitude : nat -> real) (peakSlipRate : nat -> real)
  : nat -> real :=
  forLoop numPaddedPoints
    (fun pointIndex peakSlipRate =>
       store1 peakSlipRate pointIndex
         (Rmax (peakSlipRate pointIndex) (slipRateMagnitude pointIndex)))
    peakSlipRate.

(** *** [saveAverageSlipOutput] *)

Definition saveAverageSlipOutput (tmpSlip : nat -> real) (averagedSlip : real)
  : real :=
  let sumOfTmpSlip :=
    forLoop numberOfBoundaryGaussPoints
      (fun pointIndex sumOfTmpSlip => sumOfTmpSlip + tmpSlip pointIndex) 0 in
  averagedSlip + sumOfTmpSlip / INR numberOfBoundaryGaussPoints.

End Common.

End Common.

(** ** [class LoopStatistics] of Monitoring/LoopStatistics.h

    The four vectors are lists; [v[i]] past the end of a vector and the
    failing [assert] of [getRegion] are [None].  The reading of the
    monotonic clock is an argument of [begin] and [end_] (the member
    function [end]).  The [unsigned] values are only stored. *)

Module LoopStatistics.

Record timespec : Type := mkTimespec {
  tv_sec : Z;
  tv_nsec : Z
}.

Record Sample : Type := mkSample {
  sample_begin : timespec;
  sample_end : timespec;
  numIters : nat;
  subRegion : nat
}.

Record t : Type := mk {
  m_begin : list timespec;
  m_regions : list String.string;
  m_times : list (list Sample);
  m_includeInSummary : list bool
}.

(** A default-constructed object. *)
Definition empty : t := mk [] [] [] [].

Definition addRegion (name : String.string) (includeInSummary : bool)
    (this : t) : t :=
  mk (m_begin this ++ [mkTimespec 0 0])
     (m_regions this ++ [name])
     (m_times this ++ [[]])
     (m_includeInSummary this ++ [includeInSummary]).

(** [std::distance(first, std::find(first, last, name))]. *)
Fixpoint find (name : String.string) (regions : list String.string) : nat :=
  match regions with
  | [] => O
  | r :: rest => if String.eqb r name then O else S (find name rest)
  end.

Definition getRegion (name : String.string) (this : t) : option nat :=
  let it := find name (m_regions this) in
  if Nat.ltb it (length (m_regions this)) then Some it else None.

Definition begin (region : nat) (now : timespec) (this : t) : option t :=
  match nth_error (m_begin this) region with
  | Some _ =>
      Some (mk (listStore (m_begin this) region now) (m_regions this)
              (m_times this) (m_includeInSummary this))
  | None => None
  end.

(** [m_times[region].push_back(sample)]. *)
Definition pushSample (region : nat) (sample : Sample) (this : t) : option t :=
  match nth_error (m_times this) region with
  | Some samples =>
      Some (mk (m_begin this) (m_regions this)
              (listStore (m_times this) region (samples ++ [sample]))
              (m_includeInSummary this))
  | None => None
  end.

Definition end_ (region numIterations subRegion : nat) (now : timespec)
    (this : t) : option t :=
  match nth_error (m_begin this) region with
  | Some started =>
      pushSample region (mkSample started now numIterations subRegion) this
  | None => None
  end.

Definition addSample (region numIters subRegion : nat)
    (begin end_ : timespec) (this : t) : option t :=
  pushSample region (mkSample begin end_ numIters subRegion) this.

(** The four vectors have one entry per region. *)
Definition aligned (this : t) : Prop :=
  length (m_begin this) = length (m_regions this) /\
  length (m_times this) = length (m_regions this) /\
  length (m_includeInSummary this) = length (m_regions this).

End LoopStatistics.

(** ** Sequences of diagnostics calls *)

Section Diagnostics.

Variable numPaddedPoints : nat.

Context {SpecT : Type}.

Local Abbreviation Law := (LinearSlipWeakeningLaw SpecT).

(** What can happen to the two pending flags and their time fields during a
    run: [Common::saveRuptureFrontOutput] applied to the rows of a face (its
    slip-rate and time arguments are the caller's), the member function
    [saveDynamicStressOutput], and the rest of the solver, which rewrites
    the accumulated slip and the clock but has no access path to the four
    diagnostics arrays. *)
Inductive Call : Type :=
| CallSaveRuptureFrontOutput
    (ltsFace : nat) (slipRateMagnitude : nat -> real) (fullUpdateTime : real)
| CallSaveDynamicStressOutput (ltsFace : nat)
| CallAdvance
    (accumulatedSlipMagnitude' : nat -> nat -> real) (mFullUpdateTime' : real).

Definition exec (c : Call) (this : Law) : Law :=
  match c with
  | CallSaveRuptureFrontOutput ltsFace slipRate fullUpdateTime =>
      let '(pending, time) :=
        Common.saveRuptureFrontOutput numPaddedPoints
          (ruptureTimePending this ltsFace) (ruptureTime this ltsFace)
          slipRate fullUpdateTime in
      let this :=
        set_ruptureTimePending
          (store1 (ruptureTimePending this) ltsFace pending) this in
      set_ruptureTime (store1 (ruptureTime this) ltsFace time) this
  | CallSaveDynamicStressOutput ltsFace =>
      saveDynamicStressOutput numPaddedPoints ltsFace this
  | CallAdvance acc time =>
      set_mFullUpdateTime time (set_accumulatedSlipMagnitude acc this)
  end.

Definition run (calls : list Call) (this : Law) : Law :=
  fold_left (fun st c => exec c st) calls this.

(** The states a run goes through, the initial one first. *)
Fixpoint states (calls : list Call) (this : Law) : list Law :=
  match calls with
  | [] => [this]
  | c :: rest => this :: states rest (exec c this)
  end.

End Diagnostics.

(** The number of places where a history of flag values goes from [from] to
    [to] in one step. *)
Fixpoint edges (from to : bool) (history : list bool) : nat :=
  match history with
  | [] => O
  | a :: rest =>
      match rest with
      | b :: _ => if Bool.eqb a from && Bool.eqb b to then 1%nat else O
      | [] => O
      end + edges from to rest
  end.

(** ** The values of one iteration of [calcSlipRateAndTraction]

    The loop body at [pointIndex] reads the arrays at [pointIndex] only, so
    its results can be written as functions of the state before the loop.
    These are the expressions of the body with the state before the loop in
    place of the current one; the lemma [calcSlipRateAndTraction_loop]
    proves that the loop computes them. *)

Section PointValues.

Context {SpecT : Type}.
Variable this : LinearSlipWeakeningLaw SpecT.
Variable faultStresses : FaultStresses.t.
Variable strength : nat -> real.
Variables timeIndex ltsFace : nat.

Definition totalTraction1At (p : nat) : real :=
  initialStressInFaultCS this ltsFace p 3%nat +
  FaultStresses.traction1 faultStresses timeIndex p.

Definition totalTraction2At (p : nat) : real :=
  initialStressInFaultCS this ltsFace p 5%nat +
  FaultStresses.traction2 faultStresses timeIndex p.

Definition slipRateMagnitudeAt (p : nat) : real :=
  Rmax 0
    ((magnitude (totalTraction1At p) (totalTraction2At p) - strength p) *
     invEtaS (impAndEta this ltsFace)).

Definition divisorAt (p : nat) : real :=
  divisor (strength p) (etaS (impAndEta this ltsFace)) (slipRateMagnitudeAt p).

Definition slipRate1At (p : nat) : real :=
  slipRateMagnitudeAt p * totalTraction1At p / divisorAt p.

Definition slipRate2At (p : nat) : real :=
  slipRateMagnitudeAt p * totalTraction2At p / divisorAt p.

Definition traction1At (p : nat) : real :=
  FaultStresses.traction1 faultStresses timeIndex p -
  etaS (impAndEta this ltsFace) * slipRate1At p.

Definition traction2At (p : nat) : real :=
  FaultStresses.traction2 faultStresses timeIndex p -
  etaS (impAndEta this ltsFace) * slipRate2At p.

End PointValues.

(** [inLoop row k c i new old]: the entry at row [c] and index [i] of an
    array after [k] iterations of a loop that writes row [row] (the face, or
    the time sub-interval) at the index of the iteration. *)
Definition inLoop {A : Type} (row k c i : nat) (new old : A) : A :=
  if Nat.eqb c row && Nat.ltb i k then new else old.

(** ** The mean of [saveAverageSlipOutput], in the spec's words

    The sum of [tmpSlip] over the boundary quadrature points, as a sum over
    the list of the first [n] entries. *)
Definition sumOverBoundaryPoints (n : nat) (tmpSlip : nat -> real) : real :=
  fold_right Rplus 0 (map tmpSlip (seq 0 n)).

(** ** Write-once flags

    [frozen pending pending' time time']: wherever the flag was already
    cleared it is still cleared, and the time it guards has its old value. *)
Definition frozen (pending pending' : nat -> bool) (time time' : nat -> real)
  : Prop :=
  forall p, pending p = false -> pending' p = false /\ time' p = time p.

(** ** What the friction stages leave alone

    [keepsParameters st st']: the per-face parameters and the clock of [st]
    are those of [st'].  [keepsDiagnostics st st']: so are the two pending
    flags and the two times they guard. *)
Definition keepsParameters {SpecT : Type}
    (st st' : LinearSlipWeakeningLaw SpecT) : Prop :=
  initialStressInFaultCS st' = initialStressInFaultCS st /\
  impAndEta st' = impAndEta st /\
  mFullUpdateTime st' = mFullUpdateTime st /\
  dC st' = dC st /\
  muS st' = muS st /\
  muD st' = muD st /\
  cohesion st' = cohesion st.

Definition keepsDiagnostics {SpecT : Type}
    (st st' : LinearSlipWeakeningLaw SpecT) : Prop :=
  ruptureTimePending st' = ruptureTimePending st /\
  ruptureTime st' = ruptureTime st /\
  dynStressTimePending st' = dynStressTimePending st /\
  dynStressTime st' = dynStressTime st.

(** ** The kernel output of one time sub-interval

    [thetaOfSubInterval ... o]: the contents of [thetaBuffer] after the
    executions of [computeTheta] for the sub-intervals [0 .. o], starting
    from the zero-initialised buffer. *)
Definition thetaOfSubInterval
    (computeTheta_execute :
       list real -> list real -> list real -> list real -> list real ->
       (nat -> nat -> real) -> nat -> nat -> real)
    (impedanceMatrices : ImpedanceMatrices)
    (qInterpolatedPlus qInterpolatedMinus : nat -> list real) (o : nat)
  : nat -> nat -> real :=
  forLoop (S o)
    (fun o' thetaBuffer =>
       computeTheta_execute (impedanceNeig impedanceMatrices)
         (impedance impedanceMatrices) (eta impedanceMatrices)
         (qInterpolatedPlus o') (qInterpolatedMinus o') thetaBuffer)
    (fun _ _ => 0).

(** ** Concrete inputs

    One face with constant fields: initial fault-normal stress [-10], initial
    shear stress [(6, 0)], friction coefficient [3/5], time increment
    [1/10].  The impedances, the cohesion and the accumulated slip vary from
    one use to the next. *)

Definition sampleLaw (imp : ImpedancesAndEta) (cohesion0 : real)
    (accumulatedSlip0 : nat -> nat -> real)
    (slipRateMagnitude0 : nat -> nat -> real)
  : LinearSlipWeakeningLaw NoSpecialization :=
  mkLaw
    (fun _ _ k =>
       if Nat.eqb k 0 then -10 else if Nat.eqb k 3 then 6 else 0)
    (fun _ => imp)
    (fun _ => 1 / 10)
    0
    (fun _ _ => 3 / 5)
    accumulatedSlip0
    (fun _ _ => 0) (fun _ _ => 0)
    slipRateMagnitude0
    (fun _ _ => 0) (fun _ _ => 0)
    (fun _ _ => 0) (fun _ _ => 0)
    (fun _ _ => true) (fun _ _ => 0)
    (fun _ _ => true) (fun _ _ => 0)
    (fun _ _ => 1 / 2)
    (fun _ _ => 3 / 5) (fun _ _ => 1 / 5)
    (fun _ _ => cohesion0)
    mkNoSpecialization.

(** Kernel output: normal stress [-2], shear tractions [(2, 0)]; with the
    initial stress the predicted total shear traction is [(8, 0)]. *)
Definition sampleFaultStresses : FaultStresses.t :=
  FaultStresses.mk (fun _ _ => -2) (fun _ _ => 2) (fun _ _ => 0).

Definition sampleTractionResults : TractionResults.t :=
  TractionResults.mk (fun _ _ => 0) (fun _ _ => 0).

Definition zeros : nat -> nat -> real := fun _ _ => 0.

(** Effective shear impedance [2] with its inverse; a negative impedance with
    its inverse; an impedance whose stored inverse is negative. *)
Definition impedance2 : ImpedancesAndEta := mkImpedancesAndEta 2 (/ 2).

(** A resampling matrix: the least-squares projection onto the affine
    functions at the three equally weighted nodes [-1, 0, 1], evaluated at
    the nodes, [1/3 + x_i * x_j / 2]. *)
Definition sampleNode (i : nat) : real :=
  if Nat.eqb i 0 then - 1 else if Nat.eqb i 1 then 0 else 1.

Definition sampleResample (i j : nat) : real :=
  1 / 3 + sampleNode i * sampleNode j / 2.

(** Slip-rate magnitude [6] at one point of each face and [0] elsewhere. *)
Definition slipRateAtPoint (q : nat) : nat -> nat -> real :=
  fun _ p => if Nat.eqb p q then 6 else 0.

(** A slip increment buffer: [1] at each of four boundary points, [99] in
    the padded tail. *)
Definition sampleTmpSlip (p : nat) : real := if Nat.ltb p 4 then 1 else 99.

(** Stand-ins for the generated imposed-state kernels: each adds the
    weighted kernel stress of the first point to every entry. *)
Definition sampleKernel
    (Z : list real) (theta : nat -> nat -> real) (Q : list real)
    (weight : real) (imposedState : list real) : list real :=
  map (fun x => x + weight * theta 0%nat 1%nat) imposedState.

Definition sampleImpedanceMatrices : ImpedanceMatrices :=
  mkImpedanceMatrices [] [] [].

(** A stand-in for the generated kernel [computeTheta]: row [i] holds the
    first entry of the plus side plus [i] in column [0], the first entry of
    the minus side in column [1] and the old column [2] plus one. *)
Definition sampleComputeTheta
    (Zplus Zminus eta Qplus Qminus : list real) (theta : nat -> nat -> real)
  : nat -> nat -> real :=
  fun i k =>
    if Nat.eqb k 0 then nth 0 Qplus 0 + INR i
    else if Nat.eqb k 1 then nth 0 Qminus 0
    else theta i k + 1.

(** ** Proof automation *)

(** Case analysis on every index comparison of the goal. *)
Ltac case_indices :=
  repeat match goal with
    | |- context [Nat.eqb ?a ?b] => destruct (Nat.eqb_spec a b); try subst a
    | |- context [Nat.ltb ?a ?b] => destruct (Nat.ltb_spec a b)
    end;
  cbv beta; cbn [andb].

(** ** Properties *)

(** *** Arrays and loops *)

Lemma store1_same {A : Type} (a : nat -> A) (i : nat) (v : A) :
  store1 a i v i = v.
Proof. unfold store1. now rewrite Nat.eqb_refl. Qed.

Lemma store1_other {A : Type} (a : nat -> A) (i j : nat) (v : A) :
  j <> i -> store1 a i v j = a j.
Proof.
  intros Hne. unfold store1.
  destruct (Nat.eqb_spec j i); [contradiction | reflexivity].
Qed.

Lemma store2_same {A : Type} (a : nat -> nat -> A) (f p : nat) (v : A) :
  store2 a f p v f p = v.
Proof. unfold store2. rewrite Nat.eqb_refl. apply store1_same. Qed.

Lemma store2_other {A : Type} (a : nat -> nat -> A) (f p g q : nat) (v : A) :
  g <> f \/ q <> p -> store2 a f p v g q = a g q.
Proof.
  intros Hne. unfold store2.
  destruct (Nat.eqb_spec g f) as [-> | Hg]; [| reflexivity].
  apply store1_other. destruct Hne as [Hf | Hq]; [contradiction | exact Hq].
Qed.

(** A loop is the left fold of its body over the indices [0 .. n-1]. *)
Lemma forLoop_fold_left {St : Type} (n : nat) (body : nat -> St -> St) (s : St) :
  forLoop n body s = fold_left (fun st i => body i st) (seq 0 n) s.
Proof.
  induction n as [| n IH]; [reflexivity |].
  rewrite seq_S, fold_left_app. simpl. now rewrite IH.
Qed.

(** Loop invariants: [P k] relates the state to the number [k] of
    iterations done. *)
Lemma forLoop_invariant {St : Type} (P : nat -> St -> Prop)
    (n : nat) (body : nat -> St -> St) (s : St) :
  P 0%nat s ->
  (forall k s', (k < n)%nat -> P k s' -> P (S k) (body k s')) ->
  P n (forLoop n body s).
Proof.
  intros H0 Hstep.
  assert (Hall : forall k, (k <= n)%nat -> P k (forLoop k body s)).
  { induction k as [| k IH]; intros Hk; [exact H0 |].
    simpl. apply Hstep; [lia |]. apply IH. lia. }
  apply Hall. lia.
Qed.

(** *** [calcSlipRateAndTraction], point by point *)

Section SlipRateAndTraction.

Variable numPaddedPoints : nat.
Context {SpecT : Type}.
Variable faultStresses : FaultStresses.t.
Variable tractionResults : TractionResults.t.
Variable strength : nat -> real.
Variables timeIndex ltsFace : nat.
Variable this : LinearSlipWeakeningLaw SpecT.

Local Abbreviation T1 := (totalTraction1At this faultStresses timeIndex ltsFace).
Local Abbreviation T2 := (totalTraction2At this faultStresses timeIndex ltsFace).
Local Abbreviation rate :=
  (slipRateMagnitudeAt this faultStresses strength timeIndex ltsFace).
Local Abbreviation rate1 :=
  (slipRate1At this faultStresses strength timeIndex ltsFace).
Local Abbreviation rate2 :=
  (slipRate2At this faultStresses strength timeIndex ltsFace).
Local Abbreviation trac1 :=
  (traction1At this faultStresses strength timeIndex ltsFace).
Local Abbreviation trac2 :=
  (traction2At this faultStresses strength timeIndex ltsFace).

Lemma calcSlipRateAndTraction_loop (k : nat) :
  let r :=
    forLoop k
      (calcSlipRateAndTraction_body faultStresses strength timeIndex ltsFace)
      (this, tractionResults) in
  (initialStressInFaultCS (fst r) = initialStressInFaultCS this /\
   impAndEta (fst r) = impAndEta this /\
   deltaT (fst r) = deltaT this) /\
  (forall f p,
     slipRateMagnitude (fst r) f p =
     inLoop ltsFace k f p (rate p) (slipRateMagnitude this f p)) /\
  (forall f p,
     slipRate1 (fst r) f p =
     inLoop ltsFace k f p (rate1 p) (slipRate1 this f p)) /\
  (forall f p,
     slipRate2 (fst r) f p =
     inLoop ltsFace k f p (rate2 p) (slipRate2 this f p)) /\
  (forall f p,
     slip1 (fst r) f p =
     inLoop ltsFace k f p
       (slip1 this f p + rate1 p * deltaT this timeIndex) (slip1 this f p)) /\
  (forall f p,
     slip2 (fst r) f p =
     inLoop ltsFace k f p
       (slip2 this f p + rate2 p * deltaT this timeIndex) (slip2 this f p)) /\
  (forall o p,
     TractionResults.traction1 (snd r) o p =
     inLoop timeIndex k o p (trac1 p)
       (TractionResults.traction1 tractionResults o p)) /\
  (forall o p,
     TractionResults.traction2 (snd r) o p =
     inLoop timeIndex k o p (trac2 p)
       (TractionResults.traction2 tractionResults o p)) /\
  (forall f p,
     traction1 (fst r) f p =
     inLoop ltsFace k f p (trac1 p) (traction1 this f p)) /\
  (forall f p,
     traction2 (fst r) f p =
     inLoop ltsFace k f p (trac2 p) (traction2 this f p)).
Proof.
  induction k as [| k IH].
  - simpl. unfold inLoop.
    repeat split; intros; rewrite ?andb_false_r; reflexivity.
  - simpl forLoop.
    destruct (forLoop k _ _) as [st tr]. simpl in IH.
    destruct IH as
      ((Hi & He & Hd) & Hm & H1 & H2 & Hs1 & Hs2 & Ht1 & Ht2 & Hq1 & Hq2).
    unfold calcSlipRateAndTraction_body. cbn [fst snd].
    cbn -[Nat.ltb Nat.eqb Rmax magnitude divisor].
    rewrite Hi, He, Hd.
    rewrite !store2_same.
    repeat split; intros f p; unfold store2, store1, inLoop in *;
      case_indices;
      rewrite ?Hm, ?H1, ?H2, ?Hs1, ?Hs2, ?Ht1, ?Ht2, ?Hq1, ?Hq2;
      case_indices; try lia; reflexivity.
Qed.

(** After the whole loop, at a point of the face. *)
Lemma calcSlipRateAndTraction_point (p : nat) :
  (p < numPaddedPoints)%nat ->
  let r :=
    calcSlipRateAndTraction numPaddedPoints faultStresses tractionResults
      strength timeIndex ltsFace this in
  slipRateMagnitude (fst r) ltsFace p = rate p /\
  slipRate1 (fst r) ltsFace p = rate1 p /\
  slipRate2 (fst r) ltsFace p = rate2 p /\
  slip1 (fst r) ltsFace p = slip1 this ltsFace p + rate1 p * deltaT this timeIndex /\
  slip2 (fst r) ltsFace p = slip2 this ltsFace p + rate2 p * deltaT this timeIndex /\
  TractionResults.traction1 (snd r) timeIndex p = trac1 p /\
  TractionResults.traction2 (snd r) timeIndex p = trac2 p /\
  traction1 (fst r) ltsFace p = trac1 p /\
  traction2 (fst r) ltsFace p = trac2 p.
Proof.
  intros Hp r.
  destruct (calcSlipRateAndTraction_loop numPaddedPoints)
    as (_ & Hm & H1 & H2 & Hs1 & Hs2 & Ht1 & Ht2 & Hq1 & Hq2).
  fold r in Hm, H1, H2, Hs1, Hs2, Ht1, Ht2, Hq1, Hq2.
  assert (Hin : forall (A : Type) (row : nat) (x y : A),
             inLoop row numPaddedPoints row p x y = x).
  { intros A row x y. unfold inLoop. rewrite Nat.eqb_refl.
    destruct (Nat.ltb_spec p numPaddedPoints); [reflexivity | lia]. }
  rewrite Hm, H1, H2, Hs1, Hs2, Ht1, Ht2, Hq1, Hq2, !Hin.
  repeat split.
Qed.

End SlipRateAndTraction.

(** *** Real-number facts used below *)

Lemma Rmax_0_nonneg (x : R) : 0 <= Rmax 0 x.
Proof. apply Rmax_l. Qed.

Lemma Rmax_0_of_nonpos (x : R) : x <= 0 -> Rmax 0 x = 0.
Proof. intros Hx. apply Rmax_left. exact Hx. Qed.

Lemma Rmax_0_of_nonneg (x : R) : 0 <= x -> Rmax 0 x = x.
Proof. intros Hx. apply Rmax_right. exact Hx. Qed.

Lemma magnitude_nonneg (x y : R) : 0 <= magnitude x y.
Proof. unfold magnitude. apply sqrt_pos. Qed.


(** *** Properties of [calcSlipRateAndTraction] *)

(** C1. For every face, sub-interval and point below [numPaddedPoints],
    [calcSlipRateAndTraction] leaves in [slipRateMagnitude] the value
    [max(0, (|T| - strength) * invEtaS)], where [T1], [T2] are the initial
    shear stresses plus the kernel-computed shear tractions and
    [|T| = sqrt(T1^2 + T2^2)]; hence the slip-rate magnitude is
    non-negative after this stage. *)
Theorem calcSlipRateAndTraction_slipRateMagnitude
    (numPaddedPoints : nat) {SpecT : Type}
    (this : LinearSlipWeakeningLaw SpecT)
    (faultStresses : FaultStresses.t) (tractionResults : TractionResults.t)
    (strength : nat -> real) (timeIndex ltsFace p : nat) :
  (p < numPaddedPoints)%nat ->
  let r :=
    calcSlipRateAndTraction numPaddedPoints faultStresses tractionResults
      strength timeIndex ltsFace this in
  let T1 :=
    initialStressInFaultCS this ltsFace p 3%nat +
    FaultStresses.traction1 faultStresses timeIndex p in
  let T2 :=
    initialStressInFaultCS this ltsFace p 5%nat +
    FaultStresses.traction2 faultStresses timeIndex p in
  slipRateMagnitude (fst r) ltsFace p =
    Rmax 0 ((sqrt (T1 * T1 + T2 * T2) - strength p) *
            invEtaS (impAndEta this ltsFace)) /\
  0 <= slipRateMagnitude (fst r) ltsFace p.
Proof.
  intros Hp r T1 T2.
  destruct (calcSlipRateAndTraction_point numPaddedPoints faultStresses
              tractionResults strength timeIndex ltsFace this p Hp)
    as (Hm & _).
  fold r in Hm. rewrite Hm.
  split; [reflexivity | apply Rmax_0_nonneg].
Qed.

Lemma calcSlipRateAndTraction_slipRateMagnitude_witness :
  (0 < 1)%nat /\
  let r :=
    calcSlipRateAndTraction 1 sampleFaultStresses sampleTractionResults
      (fun _ => 5) 0 0 (sampleLaw impedance2 0 zeros zeros) in
  0 <= slipRateMagnitude (fst r) 0%nat 0%nat.
Proof.
  split; [lia |].
  apply (calcSlipRateAndTraction_slipRateMagnitude 1
           (sampleLaw impedance2 0 zeros zeros) sampleFaultStresses
           sampleTractionResults (fun _ => 5) 0 0 0).
  lia.
Defined.

(** C7. If [strength > 0] and [etaS > 0], the divisor
    [strength + etaS * slipRateMagnitude] that [calcSlipRateAndTraction]
    uses at a point is strictly positive, so the two divisions that compute
    [slipRate1] and [slipRate2] have a non-zero denominator. *)
Theorem calcSlipRateAndTraction_divisor_positive
    (numPaddedPoints : nat) {SpecT : Type}
    (this : LinearSlipWeakeningLaw SpecT)
    (faultStresses : FaultStresses.t) (tractionResults : TractionResults.t)
    (strength : nat -> real) (timeIndex ltsFace p : nat) :
  (p < numPaddedPoints)%nat ->
  0 < strength p ->
  0 < etaS (impAndEta this ltsFace) ->
  let r :=
    calcSlipRateAndTraction numPaddedPoints faultStresses tractionResults
      strength timeIndex ltsFace this in
  let d :=
    divisor (strength p) (etaS (impAndEta this ltsFace))
      (slipRateMagnitude (fst r) ltsFace p) in
  0 < d /\ d <> 0 /\
  slipRate1 (fst r) ltsFace p =
    slipRateMagnitude (fst r) ltsFace p *
    (initialStressInFaultCS this ltsFace p 3%nat +
     FaultStresses.traction1 faultStresses timeIndex p) / d /\
  slipRate2 (fst r) ltsFace p =
    slipRateMagnitude (fst r) ltsFace p *
    (initialStressInFaultCS this ltsFace p 5%nat +
     FaultStresses.traction2 faultStresses timeIndex p) / d.
Proof.
  intros Hp Hs He r d.
  destruct (calcSlipRateAndTraction_point numPaddedPoints faultStresses
              tractionResults strength timeIndex ltsFace this p Hp)
    as (Hm & H1 & H2 & _).
  fold r in Hm, H1, H2.
  assert (Hd : 0 < d).
  { unfold d, divisor. rewrite Hm.
    pose proof (Rmax_0_nonneg
      ((magnitude (totalTraction1At this faultStresses timeIndex ltsFace p)
          (totalTraction2At this faultStresses timeIndex ltsFace p) -
        strength p) * invEtaS (impAndEta this ltsFace))) as Hr.
    unfold slipRateMagnitudeAt. nra. }
  repeat split.
  - exact Hd.
  - lra.
  - rewrite H1. unfold d. rewrite Hm. reflexivity.
  - rewrite H2. unfold d. rewrite Hm. reflexivity.
Qed.

Lemma calcSlipRateAndTraction_divisor_positive_witness :
  let r :=
    calcSlipRateAndTraction 1 sampleFaultStresses sampleTractionResults
      (fun _ => 5) 0 0 (sampleLaw impedance2 0 zeros zeros) in
  0 < divisor 5 2 (slipRateMagnitude (fst r) 0%nat 0%nat).
Proof.
  apply (calcSlipRateAndTraction_divisor_positive 1
           (sampleLaw impedance2 0 zeros zeros) sampleFaultStresses
           sampleTractionResults (fun _ => 5) 0 0 0).
  - lia.
  - lra.
  - simpl. lra.
Defined.









(** *** Properties of [calcStrengthHook] *)

Section Strength.

Variable numPaddedPoints : nat.
Context {SpecT : Type} `{SpecializationT SpecT}.
Variable faultStresses : FaultStresses.t.
Variable strength : nat -> real.
Variables timeIndex ltsFace : nat.
Variable this : LinearSlipWeakeningLaw SpecT.

(** A strength hook with an empty body, as in [NoSpecialization] and
    [ForcedRuptureTime]. *)
Hypothesis strengthHook_id :
  forall s args f p, strengthHook s args f p = (s, args).

Lemma calcStrengthHook_loop (k : nat) :
  let r :=
    forLoop k (calcStrengthHook_body faultStresses timeIndex ltsFace)
      (this, strength) in
  initialStressInFaultCS (fst r) = initialStressInFaultCS this /\
  cohesion (fst r) = cohesion this /\
  (forall f p, mu (fst r) f p = mu this f p) /\
  (forall p,
     snd r p =
     if Nat.ltb p k
     then - cohesion this ltsFace p -
          mu this ltsFace p *
          Rmin (initialStressInFaultCS this ltsFace p 0%nat +
                FaultStresses.normalStress faultStresses timeIndex p) 0
     else strength p).
Proof.
  induction k as [| k IH].
  - simpl. repeat split.
  - simpl forLoop. destruct (forLoop k _ _) as [st str]. simpl in IH.
    destruct IH as (Hi & Hc & Hmu & Hs).
    unfold calcStrengthHook_body. rewrite strengthHook_id.
    cbn -[Nat.ltb Nat.eqb Rmin].
    rewrite Hi, Hc, !store1_same, Hmu.
    repeat split.
    + intros f p. unfold store2, store1. case_indices;
        rewrite ?Hmu; reflexivity.
    + intros p. unfold store1. case_indices; rewrite ?Hs;
        case_indices; try lia; reflexivity.
Qed.

End Strength.

(** Both hooks of [NoSpecialization] return what they receive. *)
Lemma NoSpecialization_strengthHook
    (s : NoSpecialization) (args : StrengthHookArgs) (f p : nat) :
  strengthHook s args f p = (s, args).
Proof. reflexivity. Qed.

Lemma NoSpecialization_stateVariableHook
    (s : NoSpecialization) (stateVariable : nat -> real) (time : real)
    (f : nat) :
  stateVariableHook s stateVariable time f = (s, stateVariable).
Proof. reflexivity. Qed.

(** C2, as amended.  With a strength hook that changes nothing (the no-op
    and the forced-rupture-time specializations), the strength stage leaves
    at every point [strength = -cohesion - mu * min(totalNormalStress, 0)],
    where [totalNormalStress] is the initial fault-normal stress plus the
    kernel-computed normal stress.  Under tension or zero normal stress the
    strength is [-cohesion].  Under compression the strength is
    non-negative provided [cohesion <= 0] and [mu >= 0]. *)
Theorem calcStrengthHook_strength
    (numPaddedPoints : nat) {SpecT : Type} `{SpecializationT SpecT}
    (this : LinearSlipWeakeningLaw SpecT)
    (faultStresses : FaultStresses.t) (strength : nat -> real)
    (timeIndex ltsFace p : nat) :
  (forall s args f q, strengthHook s args f q = (s, args)) ->
  (p < numPaddedPoints)%nat ->
  let r :=
    calcStrengthHook numPaddedPoints faultStresses strength timeIndex ltsFace
      this in
  let totalNormalStress :=
    initialStressInFaultCS this ltsFace p 0%nat +
    FaultStresses.normalStress faultStresses timeIndex p in
  snd r p =
    - cohesion this ltsFace p -
    mu this ltsFace p * Rmin totalNormalStress 0 /\
  (0 <= totalNormalStress -> snd r p = - cohesion this ltsFace p) /\
  (totalNormalStress <= 0 ->
   cohesion this ltsFace p <= 0 -> 0 <= mu this ltsFace p ->
   0 <= snd r p).
Proof.
  intros Hid Hp r tns.
  destruct (calcStrengthHook_loop faultStresses strength timeIndex ltsFace
              this Hid numPaddedPoints) as (_ & _ & _ & Hs).
  fold (calcStrengthHook numPaddedPoints faultStresses strength timeIndex
          ltsFace this) in Hs.
  fold r in Hs. rewrite Hs.
  destruct (Nat.ltb_spec p numPaddedPoints) as [_ | Hge]; [| lia].
  fold tns.
  split; [reflexivity | split].
  - intros Htns. rewrite Rmin_right by exact Htns. ring.
  - intros Htns Hc Hmu. rewrite Rmin_left by exact Htns. nra.
Qed.

Lemma calcStrengthHook_strength_witness :
  let this := sampleLaw impedance2 (- 1) zeros zeros in
  let r := calcStrengthHook 1 sampleFaultStresses (fun _ => 0) 0 0 this in
  snd r 0%nat = - (- 1) - 3 / 5 * Rmin (- 10 + - 2) 0 /\
  0 <= snd r 0%nat.
Proof.
  intros this r.
  pose proof (calcStrengthHook_strength 1 this sampleFaultStresses
                (fun _ => 0) 0 0 0) as Hs.
  destruct Hs as (Hval & _ & Hpos).
  - exact NoSpecialization_strengthHook.
  - lia.
  - split; [exact Hval |].
    apply Hpos; simpl; lra.
Defined.

(** C2 as stated fails for a positive cohesion: with [cohesion = 10],
    [mu = 3/5] and total normal stress [-12] (compression) the strength is
    [-10 + 36/5 = -14/5]. *)
Lemma calcStrengthHook_strength_negative_under_compression :
  let this := sampleLaw impedance2 10 zeros zeros in
  let r := calcStrengthHook 1 sampleFaultStresses (fun _ => 0) 0 0 this in
  initialStressInFaultCS this 0%nat 0%nat 0%nat +
    FaultStresses.normalStress sampleFaultStresses 0%nat 0%nat <= 0 /\
  snd r 0%nat = - 14 / 5 /\
  ~ 0 <= snd r 0%nat.
Proof.
  intros this r.
  assert (Hs : snd r 0%nat = - 14 / 5).
  { destruct (calcStrengthHook_loop sampleFaultStresses (fun _ => 0) 0 0 this
                NoSpecialization_strengthHook 1) as (_ & _ & _ & Hs).
    fold (calcStrengthHook 1 sampleFaultStresses (fun _ => 0) 0 0 this) in Hs.
    fold r in Hs. rewrite Hs.
    unfold this.
    cbn [Nat.ltb Nat.leb cohesion mu initialStressInFaultCS sampleLaw
         FaultStresses.normalStress sampleFaultStresses Nat.eqb].
    rewrite Rmin_left by lra. lra. }
  split; [| split].
  - unfold this.
    cbn [initialStressInFaultCS sampleLaw FaultStresses.normalStress
         sampleFaultStresses Nat.eqb].
    lra.
  - exact Hs.
  - rewrite Hs. lra.
Qed.

(** *** Properties of [calcStateVariableHook] *)

Section StateVariable.

Variable numPaddedPoints : nat.
Variable resample : nat -> nat -> real.
Context {SpecT : Type} `{SpecializationT SpecT}.
Variable stateVariable : nat -> real.
Variables timeIndex ltsFace : nat.
Variable this : LinearSlipWeakeningLaw SpecT.

Lemma calcStateVariableHook_loop (resampledSlipRate : nat -> real) (k : nat) :
  let r :=
    forLoop k
      (calcStateVariableHook_body resampledSlipRate timeIndex ltsFace)
      (this, stateVariable) in
  (deltaT (fst r) = deltaT this /\ dC (fst r) = dC this /\
   mFullUpdateTime (fst r) = mFullUpdateTime this /\
   specialization (fst r) = specialization this) /\
  (forall f p,
     accumulatedSlipMagnitude (fst r) f p =
     inLoop ltsFace k f p
       (accumulatedSlipMagnitude this ltsFace p +
        resampledSlipRate p * deltaT this timeIndex)
       (accumulatedSlipMagnitude this f p)) /\
  (forall p,
     snd r p =
     if Nat.ltb p k
     then Rmin (Rabs (accumulatedSlipMagnitude this ltsFace p +
                      resampledSlipRate p * deltaT this timeIndex) /
                dC this ltsFace p) 1
     else stateVariable p).
Proof.
  induction k as [| k IH].
  - simpl. unfold inLoop.
    repeat split; intros; rewrite ?andb_false_r; reflexivity.
  - simpl forLoop. destruct (forLoop k _ _) as [st sv]. simpl in IH.
    destruct IH as ((Hd & Hc & Ht & Hsp) & Ha & Hs).
    unfold calcStateVariableHook_body. cbn -[Nat.ltb Nat.eqb Rmin Rabs].
    rewrite Hd, Hc, !store2_same.
    repeat split; try assumption.
    + intros f p. unfold store2, store1, inLoop in *.
      case_indices; rewrite ?Ha; case_indices; try lia; reflexivity.
    + intros p. unfold store1, inLoop in *.
      case_indices; rewrite ?Hs, ?Ha; case_indices; try lia; reflexivity.
Qed.

(** After the whole function, whatever the state-variable hook does. *)
Lemma calcStateVariableHook_accumulatedSlip (f p : nat) :
  let r :=
    calcStateVariableHook numPaddedPoints resample stateVariable timeIndex
      ltsFace this in
  accumulatedSlipMagnitude (fst r) f p =
  inLoop ltsFace numPaddedPoints f p
    (accumulatedSlipMagnitude this ltsFace p +
     resampleParameter_execute numPaddedPoints resample
       (slipRateMagnitude this ltsFace) p * deltaT this timeIndex)
    (accumulatedSlipMagnitude this f p).
Proof.
  intros r. unfold r, calcStateVariableHook.
  pose proof (calcStateVariableHook_loop
                (resampleParameter_execute numPaddedPoints resample
                   (slipRateMagnitude this ltsFace)) numPaddedPoints) as Hl.
  destruct (forLoop numPaddedPoints _ _) as [st sv]. simpl in Hl.
  destruct Hl as (_ & Ha & _).
  destruct (stateVariableHook _ _ _ _) as [spec sv']. simpl.
  apply Ha.
Qed.

(** With a state-variable hook that changes nothing. *)
Lemma calcStateVariableHook_stateVariable (p : nat) :
  (forall s sv time f, stateVariableHook s sv time f = (s, sv)) ->
  (p < numPaddedPoints)%nat ->
  let r :=
    calcStateVariableHook numPaddedPoints resample stateVariable timeIndex
      ltsFace this in
  dC (fst r) = dC this /\
  snd r p =
  Rmin (Rabs (accumulatedSlipMagnitude this ltsFace p +
              resampleParameter_execute numPaddedPoints resample
                (slipRateMagnitude this ltsFace) p * deltaT this timeIndex) /
        dC this ltsFace p) 1.
Proof.
  intros Hid Hp r. unfold r, calcStateVariableHook.
  pose proof (calcStateVariableHook_loop
                (resampleParameter_execute numPaddedPoints resample
                   (slipRateMagnitude this ltsFace)) numPaddedPoints) as Hl.
  destruct (forLoop numPaddedPoints _ _) as [st sv]. simpl in Hl.
  destruct Hl as ((_ & Hc & _) & _ & Hs).
  rewrite Hid. simpl. split; [exact Hc |].
  rewrite Hs. destruct (Nat.ltb_spec p numPaddedPoints); [reflexivity | lia].
Qed.

End StateVariable.

Lemma inLoop_inside {A : Type} (row k i : nat) (x y : A) :
  (i < k)%nat -> inLoop row k row i x y = x.
Proof.
  intros Hi. unfold inLoop. rewrite Nat.eqb_refl.
  destruct (Nat.ltb_spec i k); [reflexivity | lia].
Qed.



(** *** The accumulated slip across the stages *)

Section AccumulatedSlip.

Variable numPaddedPoints : nat.
Context {SpecT : Type} `{SpecializationT SpecT}.
Variables timeIndex ltsFace : nat.
Variable this : LinearSlipWeakeningLaw SpecT.

Lemma calcStrengthHook_accumulatedSlip
    (faultStresses : FaultStresses.t) (strength : nat -> real) :
  accumulatedSlipMagnitude
    (fst (calcStrengthHook numPaddedPoints faultStresses strength timeIndex
            ltsFace this)) =
  accumulatedSlipMagnitude this.
Proof.
  unfold calcStrengthHook.
  apply (forLoop_invariant
           (fun _ s => accumulatedSlipMagnitude (fst s) =
                       accumulatedSlipMagnitude this)).
  - reflexivity.
  - intros k [st str] _ Hs. unfold calcStrengthHook_body.
    destruct (strengthHook _ _ _ _) as [spec args]. exact Hs.
Qed.

Lemma calcSlipRateAndTraction_accumulatedSlip
    (faultStresses : FaultStresses.t) (tractionResults : TractionResults.t)
    (strength : nat -> real) :
  accumulatedSlipMagnitude
    (fst (calcSlipRateAndTraction numPaddedPoints faultStresses
            tractionResults strength timeIndex ltsFace this)) =
  accumulatedSlipMagnitude this.
Proof.
  unfold calcSlipRateAndTraction.
  apply (forLoop_invariant
           (fun _ s => accumulatedSlipMagnitude (fst s) =
                       accumulatedSlipMagnitude this)).
  - reflexivity.
  - intros k [st tr] _ Hs. exact Hs.
Qed.

Lemma frictionFunctionHook_accumulatedSlip (stateVariable : nat -> real) :
  accumulatedSlipMagnitude
    (frictionFunctionHook numPaddedPoints stateVariable ltsFace this) =
  accumulatedSlipMagnitude this.
Proof.
  unfold frictionFunctionHook.
  apply (forLoop_invariant
           (fun _ s => accumulatedSlipMagnitude s =
                       accumulatedSlipMagnitude this)).
  - reflexivity.
  - intros k st _ Hs. exact Hs.
Qed.

Lemma instantaneousHealing_loop (k : nat) :
  let r := forLoop k (instantaneousHealing_body ltsFace) this in
  slipRateMagnitude r = slipRateMagnitude this /\
  (forall f p,
     accumulatedSlipMagnitude r f p =
     inLoop ltsFace k f p
       (if Rltb (slipRateMagnitude this ltsFace p) u0
        then 0 else accumulatedSlipMagnitude this ltsFace p)
       (accumulatedSlipMagnitude this f p)).
Proof.
  induction k as [| k IH].
  - simpl. unfold inLoop.
    split; intros; rewrite ?andb_false_r; reflexivity.
  - simpl forLoop. destruct IH as (Hr & Ha).
    remember (forLoop k (instantaneousHealing_body ltsFace) this) as st.
    unfold instantaneousHealing_body. rewrite Hr.
    destruct (Rltb (slipRateMagnitude this ltsFace k) u0) eqn:Hlt.
    + cbn -[Nat.ltb Nat.eqb]. split; [exact Hr |].
      intros f p. unfold store2, store1, inLoop in *.
      case_indices; rewrite ?Ha, ?Hlt; case_indices; try lia; reflexivity.
    + split; [exact Hr |].
      intros f p. rewrite Ha. unfold inLoop.
      case_indices; try lia; try reflexivity.
      assert (Hpk : p = k) by lia. subst p. rewrite Hlt. reflexivity.
Qed.

End AccumulatedSlip.

Lemma Rabs_grows (a i : R) : 0 <= a * i -> Rabs a <= Rabs (a + i).
Proof.
  intros Hs. unfold Rabs.
  destruct (Rcase_abs a); destruct (Rcase_abs (a + i)); nra.
Qed.

(** C8, as amended.  At every point, one state-variable stage adds
    [resampledSlipRate * deltaT] to the accumulated slip magnitude; its
    absolute value does not decrease when the accumulated slip and that
    increment do not have opposite signs.  The other three stages of
    [updateFrictionAndSlip] leave the accumulated slip as it is, and
    [instantaneousHealing], which [updateFrictionAndSlip] does not call,
    sets it to zero exactly where the slip-rate magnitude is below [u0]. *)
Theorem accumulatedSlipMagnitude_evolution
    (numPaddedPoints : nat) (resample : nat -> nat -> real)
    {SpecT : Type} `{SpecializationT SpecT}
    (this : LinearSlipWeakeningLaw SpecT)
    (faultStresses : FaultStresses.t) (tractionResults : TractionResults.t)
    (stateVariable strength : nat -> real) (timeIndex ltsFace p : nat) :
  (p < numPaddedPoints)%nat ->
  let r :=
    calcStateVariableHook numPaddedPoints resample stateVariable timeIndex
      ltsFace this in
  let increment :=
    resampleParameter_execute numPaddedPoints resample
      (slipRateMagnitude this ltsFace) p * deltaT this timeIndex in
  accumulatedSlipMagnitude (fst r) ltsFace p =
    accumulatedSlipMagnitude this ltsFace p + increment /\
  (0 <= accumulatedSlipMagnitude this ltsFace p * increment ->
   Rabs (accumulatedSlipMagnitude this ltsFace p) <=
   Rabs (accumulatedSlipMagnitude (fst r) ltsFace p)) /\
  accumulatedSlipMagnitude
    (fst (calcStrengthHook numPaddedPoints faultStresses strength timeIndex
            ltsFace this)) = accumulatedSlipMagnitude this /\
  accumulatedSlipMagnitude
    (fst (calcSlipRateAndTraction numPaddedPoints faultStresses
            tractionResults strength timeIndex ltsFace this)) =
    accumulatedSlipMagnitude this /\
  accumulatedSlipMagnitude
    (frictionFunctionHook numPaddedPoints stateVariable ltsFace this) =
    accumulatedSlipMagnitude this /\
  accumulatedSlipMagnitude (instantaneousHealing numPaddedPoints ltsFace this)
    ltsFace p =
    (if Rltb (slipRateMagnitude this ltsFace p) u0
     then 0 else accumulatedSlipMagnitude this ltsFace p).
Proof.
  intros Hp r increment.
  pose proof (calcStateVariableHook_accumulatedSlip numPaddedPoints resample
                stateVariable timeIndex ltsFace this ltsFace p) as Ha.
  cbv zeta in Ha. rewrite inLoop_inside in Ha by exact Hp.
  fold r in Ha. fold increment in Ha.
  split; [exact Ha | split; [| split; [| split; [| split]]]].
  - intros Hsign. rewrite Ha. apply Rabs_grows. exact Hsign.
  - apply calcStrengthHook_accumulatedSlip.
  - apply calcSlipRateAndTraction_accumulatedSlip.
  - apply frictionFunctionHook_accumulatedSlip.
  - destruct (instantaneousHealing_loop ltsFace this numPaddedPoints)
      as (_ & Hh).
    unfold instantaneousHealing. rewrite Hh.
    apply inLoop_inside. exact Hp.
Qed.

(** The resampled slip rate at the third node of the sample matrix. *)
Lemma sampleResample_at_node2 (s : nat -> real) :
  resampleParameter_execute 3 sampleResample s 2 =
  - (1 / 6) * s 0%nat + 1 / 3 * s 1%nat + 5 / 6 * s 2%nat.
Proof.
  unfold resampleParameter_execute, sampleResample, sampleNode.
  cbn [forLoop Nat.eqb]. field.
Qed.

Lemma accumulatedSlipMagnitude_evolution_witness :
  let this := sampleLaw impedance2 0 zeros (slipRateAtPoint 2) in
  let r := calcStateVariableHook 3 sampleResample (fun _ => 0) 0 0 this in
  accumulatedSlipMagnitude (fst r) 0%nat 2%nat =
    0 + resampleParameter_execute 3 sampleResample
          (slipRateMagnitude this 0%nat) 2 * (1 / 10) /\
  Rabs 0 <= Rabs (accumulatedSlipMagnitude (fst r) 0%nat 2%nat).
Proof.
  intros this r.
  pose proof (accumulatedSlipMagnitude_evolution 3 sampleResample this
                sampleFaultStresses sampleTractionResults (fun _ => 0)
                (fun _ => 0) 0 0 2) as He.
  destruct He as (Hval & Hmono & _).
  - lia.
  - split; [exact Hval |].
    apply Hmono. simpl accumulatedSlipMagnitude. unfold zeros. lra.
Defined.

(** C8 as stated fails: a resampling matrix with a negative entry turns
    non-negative slip rates into a negative resampled rate.  From zero
    accumulated slip, a first stage with slip rate [(0, 0, 6)] brings the
    third point to [5 * 1/10 = 1/2]; a second stage with slip rate
    [(6, 0, 0)] resamples to [-1] there and brings it down to [2/5]. *)
Lemma accumulatedSlipMagnitude_can_decrease :
  let this0 := sampleLaw impedance2 0 zeros (slipRateAtPoint 2) in
  let r1 := calcStateVariableHook 3 sampleResample (fun _ => 0) 0 0 this0 in
  let this1 := set_slipRateMagnitude (slipRateAtPoint 0) (fst r1) in
  let r2 := calcStateVariableHook 3 sampleResample (snd r1) 0 0 this1 in
  (forall f q, 0 <= slipRateMagnitude this0 f q) /\
  (forall f q, 0 <= slipRateMagnitude this1 f q) /\
  0 <= deltaT this0 0%nat /\ 0 <= deltaT this1 0%nat /\
  accumulatedSlipMagnitude this0 0%nat 2%nat = 0 /\
  accumulatedSlipMagnitude this1 0%nat 2%nat = 1 / 2 /\
  accumulatedSlipMagnitude (fst r2) 0%nat 2%nat = 2 / 5 /\
  ~ Rabs (accumulatedSlipMagnitude this1 0%nat 2%nat) <=
    Rabs (accumulatedSlipMagnitude (fst r2) 0%nat 2%nat).
Proof.
  intros this0 r1 this1 r2.
  assert (Hnonneg : forall q f p, 0 <= slipRateAtPoint q f p).
  { intros q f p. unfold slipRateAtPoint. destruct (Nat.eqb p q); lra. }
  assert (H1 : accumulatedSlipMagnitude (fst r1) 0%nat 2%nat = 1 / 2).
  { pose proof (calcStateVariableHook_accumulatedSlip 3 sampleResample
                  (fun _ => 0) 0 0 this0 0 2) as Ha.
    cbv zeta in Ha. rewrite inLoop_inside in Ha by lia.
    fold r1 in Ha. rewrite Ha, sampleResample_at_node2.
    unfold this0, slipRateAtPoint, zeros.
    cbn [accumulatedSlipMagnitude slipRateMagnitude deltaT sampleLaw Nat.eqb].
    lra. }
  assert (Hd1 : deltaT this1 0%nat = 1 / 10).
  { unfold this1, r1, calcStateVariableHook.
    pose proof (calcStateVariableHook_loop (fun _ => 0) 0 0 this0
                  (resampleParameter_execute 3 sampleResample
                     (slipRateMagnitude this0 0%nat)) 3) as Hl.
    destruct (forLoop 3 _ _) as [st sv]. simpl in Hl.
    destruct Hl as ((Hd & _) & _).
    simpl. rewrite Hd. reflexivity. }
  assert (H2 : accumulatedSlipMagnitude (fst r2) 0%nat 2%nat = 2 / 5).
  { pose proof (calcStateVariableHook_accumulatedSlip 3 sampleResample
                  (snd r1) 0 0 this1 0 2) as Ha.
    cbv zeta in Ha. rewrite inLoop_inside in Ha by lia.
    fold r2 in Ha. rewrite Ha, sampleResample_at_node2, Hd1.
    replace (accumulatedSlipMagnitude this1 0%nat 2%nat) with (1 / 2)
      by (symmetry; exact H1).
    unfold this1, slipRateAtPoint.
    cbn [slipRateMagnitude set_slipRateMagnitude Nat.eqb].
    lra. }
  repeat split.
  - intros f q. apply Hnonneg.
  - intros f q. apply Hnonneg.
  - simpl. lra.
  - rewrite Hd1. lra.
  - exact H1.
  - exact H2.
  - change (accumulatedSlipMagnitude this1 0%nat 2%nat)
      with (accumulatedSlipMagnitude (fst r1) 0%nat 2%nat).
    rewrite H1, H2, !Rabs_pos_eq by lra. lra.
Qed.

(** *** Properties of the diagnostics *)

Lemma Rgtb_true (x y : R) : x > y -> Rgtb x y = true.
Proof. intros Hxy. unfold Rgtb. destruct (Rgt_dec x y); [reflexivity | lra]. Qed.

Section PendingFlags.

Variable numPaddedPoints : nat.
Context {SpecT : Type}.

Local Abbreviation Law := (LinearSlipWeakeningLaw SpecT).

Lemma saveRuptureFrontOutput_frozen
    (pending : nat -> bool) (time slipRate : nat -> real) (now : real) :
  let r :=
    Common.saveRuptureFrontOutput numPaddedPoints pending time slipRate now in
  frozen pending (fst r) time (snd r).
Proof.
  unfold Common.saveRuptureFrontOutput.
  apply (forLoop_invariant
           (fun _ s => frozen pending (fst s) time (snd s))).
  - intros p Hp. split; [exact Hp | reflexivity].
  - intros k [pend tm] _ Hs. unfold Common.saveRuptureFrontOutput_body.
    destruct (pend k) eqn:Hk; [| exact Hs].
    destruct (Rgtb (slipRate k) Common.ruptureFrontThreshold); [| exact Hs].
    intros p Hp. destruct (Hs p Hp) as (Hpend & Htime). simpl in *.
    assert (Hne : p <> k) by (intros ->; congruence).
    rewrite !store1_other by exact Hne. split; assumption.
Qed.

Lemma saveDynamicStressOutput_frozen (ltsFace : nat) (this : Law) :
  let r := saveDynamicStressOutput numPaddedPoints ltsFace this in
  ruptureTimePending r = ruptureTimePending this /\
  ruptureTime r = ruptureTime this /\
  forall f, frozen (dynStressTimePending this f) (dynStressTimePending r f)
              (dynStressTime this f) (dynStressTime r f).
Proof.
  unfold saveDynamicStressOutput.
  apply (forLoop_invariant
           (fun _ r =>
              ruptureTimePending r = ruptureTimePending this /\
              ruptureTime r = ruptureTime this /\
              forall f, frozen (dynStressTimePending this f)
                          (dynStressTimePending r f)
                          (dynStressTime this f) (dynStressTime r f))).
  - split; [reflexivity | split; [reflexivity |]].
    intros f p Hp. split; [exact Hp | reflexivity].
  - intros k st _ (Hrp & Hrt & Hs). unfold saveDynamicStressOutput_body.
    destruct (dynStressTimePending st ltsFace k) eqn:Hk;
      [| split; [exact Hrp | split; [exact Hrt | exact Hs]]].
    destruct (Rgeb _ _);
      [| split; [exact Hrp | split; [exact Hrt | exact Hs]]].
    simpl. split; [exact Hrp | split; [exact Hrt |]].
    intros f p Hp. destruct (Hs f p Hp) as (Hpend & Htime).
    assert (Hne : f <> ltsFace \/ p <> k).
    { destruct (Nat.eq_dec f ltsFace) as [-> | Hf]; [| left; exact Hf].
      right. intros ->. congruence. }
    rewrite !store2_other by exact Hne. split; assumption.
Qed.

(** Every call keeps what is frozen. *)
Lemma exec_frozen (c : Call) (this : Law) (f : nat) :
  frozen (ruptureTimePending this f)
         (ruptureTimePending (exec numPaddedPoints c this) f)
         (ruptureTime this f) (ruptureTime (exec numPaddedPoints c this) f) /\
  frozen (dynStressTimePending this f)
         (dynStressTimePending (exec numPaddedPoints c this) f)
         (dynStressTime this f)
         (dynStressTime (exec numPaddedPoints c this) f).
Proof.
  destruct c as [ltsFace slipRate now | ltsFace | acc now].
  - unfold exec.
    pose proof (saveRuptureFrontOutput_frozen (ruptureTimePending this ltsFace)
                  (ruptureTime this ltsFace) slipRate now) as Hs.
    destruct (Common.saveRuptureFrontOutput _ _ _ _ _) as [pend tm].
    simpl in *. split.
    + unfold store1. destruct (Nat.eqb_spec f ltsFace) as [-> | Hne].
      * exact Hs.
      * intros p Hp. split; [exact Hp | reflexivity].
    + intros p Hp. split; [exact Hp | reflexivity].
  - unfold exec.
    destruct (saveDynamicStressOutput_frozen ltsFace this) as (Hrp & Hrt & Hs).
    rewrite Hrp, Hrt. split.
    + intros p Hp. split; [exact Hp | reflexivity].
    + apply Hs.
  - simpl. split; intros p Hp; (split; [exact Hp | reflexivity]).
Qed.

Lemma run_frozen (calls : list Call) (this : Law) (f : nat) :
  frozen (ruptureTimePending this f)
         (ruptureTimePending (run numPaddedPoints calls this) f)
         (ruptureTime this f) (ruptureTime (run numPaddedPoints calls this) f) /\
  frozen (dynStressTimePending this f)
         (dynStressTimePending (run numPaddedPoints calls this) f)
         (dynStressTime this f)
         (dynStressTime (run numPaddedPoints calls this) f).
Proof.
  revert this. induction calls as [| c calls IH]; intros this.
  - simpl. split; intros p Hp; (split; [exact Hp | reflexivity]).
  - simpl. destruct (exec_frozen c this f) as (Hr1 & Hd1).
    destruct (IH (exec numPaddedPoints c this)) as (Hr2 & Hd2).
    split; intros p Hp.
    + destruct (Hr1 p Hp) as (Hp1 & Ht1).
      destruct (Hr2 p Hp1) as (Hp2 & Ht2).
      split; [exact Hp2 | congruence].
    + destruct (Hd1 p Hp) as (Hp1 & Ht1).
      destruct (Hd2 p Hp1) as (Hp2 & Ht2).
      split; [exact Hp2 | congruence].
Qed.

(** A flag that no call sets again falls at most once and never rises. *)
Lemma edges_of_absorbing (flag : Law -> bool) :
  (forall c st, flag st = false -> flag (exec numPaddedPoints c st) = false) ->
  forall calls this,
    (flag this = false ->
     edges true false (map flag (states numPaddedPoints calls this)) = 0%nat) /\
    (edges true false (map flag (states numPaddedPoints calls this)) <= 1)%nat /\
    edges false true (map flag (states numPaddedPoints calls this)) = 0%nat.
Proof.
  intros Habs. induction calls as [| c rest IH]; intros this.
  - simpl. repeat split; lia.
  - destruct (IH (exec numPaddedPoints c this)) as (Hzero & Hone & Hrise).
    assert (Hhead : exists tail,
              map flag (states numPaddedPoints rest (exec numPaddedPoints c this))
              = flag (exec numPaddedPoints c this) :: tail).
    { destruct rest; simpl; eexists; reflexivity. }
    destruct Hhead as [tail Htail].
    cbn [states map edges]. rewrite Htail in *.
    destruct (flag this) eqn:Hthis.
    + destruct (flag (exec numPaddedPoints c this)) eqn:Hnext.
      * cbn [Bool.eqb andb]. repeat split; [discriminate | lia | lia].
      * cbn [Bool.eqb andb]. rewrite (Hzero eq_refl).
        repeat split; [discriminate | lia | lia].
    + rewrite (Habs c this Hthis) in *.
      cbn [Bool.eqb andb]. rewrite (Hzero eq_refl).
      repeat split; lia.
Qed.

End PendingFlags.

(** C6. Along any sequence of calls to [saveRuptureFrontOutput] and
    [saveDynamicStressOutput], interleaved with any rewriting of the
    accumulated slip and of the clock: once the rupture-time pending flag
    of a point is false it is false after every later call, so it goes from
    true to false at most once and never back, and the recorded
    [ruptureTime] keeps its value; the same holds for the dynamic-stress
    pending flag and [dynStressTime].  Counted over the states of a run,
    each flag has at most one step from true to false and no step from
    false to true. *)
Theorem pending_flags_write_once
    (numPaddedPoints : nat) {SpecT : Type}
    (earlier later : list Call)
    (this : LinearSlipWeakeningLaw SpecT) (f p : nat) :
  let mid := run numPaddedPoints earlier this in
  let final := run numPaddedPoints later mid in
  (ruptureTimePending mid f p = false ->
   ruptureTimePending final f p = false /\
   ruptureTime final f p = ruptureTime mid f p) /\
  (dynStressTimePending mid f p = false ->
   dynStressTimePending final f p = false /\
   dynStressTime final f p = dynStressTime mid f p) /\
  (edges true false
     (map (fun st => ruptureTimePending st f p)
        (states numPaddedPoints later this)) <= 1)%nat /\
  edges false true
    (map (fun st => ruptureTimePending st f p)
       (states numPaddedPoints later this)) = 0%nat /\
  (edges true false
     (map (fun st => dynStressTimePending st f p)
        (states numPaddedPoints later this)) <= 1)%nat /\
  edges false true
    (map (fun st => dynStressTimePending st f p)
       (states numPaddedPoints later this)) = 0%nat.
Proof.
  intros mid final.
  destruct (run_frozen numPaddedPoints later mid f) as (Hr & Hd).
  split; [apply Hr | split; [apply Hd |]].
  destruct (edges_of_absorbing numPaddedPoints
              (fun st => ruptureTimePending st f p)
              (fun c st Hst =>
                 proj1 (proj1 (exec_frozen numPaddedPoints c st f) p Hst))
              later this) as (_ & Hfall & Hrise).
  destruct (edges_of_absorbing numPaddedPoints
              (fun st => dynStressTimePending st f p)
              (fun c st Hst =>
                 proj1 (proj2 (exec_frozen numPaddedPoints c st f) p Hst))
              later this) as (_ & Hfall' & Hrise').
  repeat split; assumption.
Qed.

(** On the sample face a first rupture-front call at time [2] with slip
    rate [1] clears the flag of the point and records the time. *)
Lemma sample_rupture_front_cleared :
  let mid :=
    run 1 [CallSaveRuptureFrontOutput 0 (fun _ => 1) 2]
      (sampleLaw impedance2 0 zeros zeros) in
  ruptureTimePending mid 0%nat 0%nat = false /\ ruptureTime mid 0%nat 0%nat = 2.
Proof.
  unfold run, exec, Common.saveRuptureFrontOutput,
    Common.saveRuptureFrontOutput_body.
  cbn [fold_left forLoop sampleLaw ruptureTimePending ruptureTime].
  rewrite Rgtb_true by (unfold Common.ruptureFrontThreshold; lra).
  cbn [ruptureTimePending ruptureTime set_ruptureTimePending set_ruptureTime].
  unfold store1. cbn [Nat.eqb]. split; reflexivity.
Qed.

Lemma pending_flags_write_once_witness :
  let mid :=
    run 1 [CallSaveRuptureFrontOutput 0 (fun _ => 1) 2]
      (sampleLaw impedance2 0 zeros zeros) in
  let final :=
    run 1 [CallSaveRuptureFrontOutput 0 (fun _ => 1) 7;
           CallAdvance (fun _ _ => 1) 9;
           CallSaveDynamicStressOutput 0] mid in
  ruptureTimePending final 0%nat 0%nat = false /\
  ruptureTime final 0%nat 0%nat = ruptureTime mid 0%nat 0%nat.
Proof.
  intros mid final.
  apply (pending_flags_write_once 1
           [CallSaveRuptureFrontOutput 0 (fun _ => 1) 2]
           [CallSaveRuptureFrontOutput 0 (fun _ => 1) 7;
            CallAdvance (fun _ _ => 1) 9;
            CallSaveDynamicStressOutput 0]
           (sampleLaw impedance2 0 zeros zeros) 0 0).
  apply sample_rupture_front_cleared.
Defined.

(** *** [saveAverageSlipOutput] *)

Lemma forLoop_sum (n : nat) (f : nat -> real) :
  forLoop n (fun i acc => acc + f i) 0 = sumOverBoundaryPoints n f.
Proof.
  unfold sumOverBoundaryPoints.
  induction n as [| n IH]; [reflexivity |].
  simpl forLoop. rewrite IH, seq_S, map_app. simpl.
  generalize (map f (seq 0 n)) as l.
  induction l as [| x l IHl]; simpl; [ring | rewrite <- IHl; ring].
Qed.

Lemma sumOverBoundaryPoints_ext (n : nat) (f g : nat -> real) :
  (forall p, (p < n)%nat -> f p = g p) ->
  sumOverBoundaryPoints n f = sumOverBoundaryPoints n g.
Proof.
  intros Hfg. unfold sumOverBoundaryPoints. f_equal.
  apply map_ext_in. intros p Hp. apply in_seq in Hp. apply Hfg. lia.
Qed.

(** C9. A call to [saveAverageSlipOutput] adds to [averagedSlip] the sum
    of [tmpSlip] over the first [numberOfBoundaryGaussPoints] entries
    divided by [numberOfBoundaryGaussPoints]; the entries of the padded
    tail have no influence; with four boundary points and a sum of [4] the
    accumulator grows by [1]. *)
Theorem saveAverageSlipOutput_adds_mean
    (numberOfBoundaryGaussPoints : nat) (tmpSlip : nat -> real)
    (averagedSlip : real) :
  Common.saveAverageSlipOutput numberOfBoundaryGaussPoints tmpSlip averagedSlip
  = averagedSlip +
    sumOverBoundaryPoints numberOfBoundaryGaussPoints tmpSlip /
    INR numberOfBoundaryGaussPoints /\
  (forall tmpSlip' : nat -> real,
     (forall p, (p < numberOfBoundaryGaussPoints)%nat ->
                tmpSlip' p = tmpSlip p) ->
     Common.saveAverageSlipOutput numberOfBoundaryGaussPoints tmpSlip'
       averagedSlip =
     Common.saveAverageSlipOutput numberOfBoundaryGaussPoints tmpSlip
       averagedSlip) /\
  (numberOfBoundaryGaussPoints = 4%nat ->
   sumOverBoundaryPoints numberOfBoundaryGaussPoints tmpSlip = 4 ->
   Common.saveAverageSlipOutput numberOfBoundaryGaussPoints tmpSlip
     averagedSlip = averagedSlip + 1).
Proof.
  unfold Common.saveAverageSlipOutput. rewrite forLoop_sum.
  split; [reflexivity | split].
  - intros tmpSlip' Hsame. rewrite forLoop_sum.
    rewrite (sumOverBoundaryPoints_ext _ tmpSlip' tmpSlip Hsame).
    reflexivity.
  - intros Hn Hsum. rewrite Hsum, Hn. simpl INR. field.
Qed.

Lemma saveAverageSlipOutput_adds_mean_witness :
  Common.saveAverageSlipOutput 4 sampleTmpSlip 10 = 10 + 1.
Proof.
  apply (saveAverageSlipOutput_adds_mean 4 sampleTmpSlip 10).
  - reflexivity.
  - unfold sumOverBoundaryPoints, sampleTmpSlip. simpl. lra.
Defined.

(** *** [postcomputeImposedStateFromNewStress] *)

Lemma listStore_app_length {A : Type} (a b : list A) (v : A) :
  listStore (a ++ b) (length a) v = a ++ listStore b 0 v.
Proof.
  induction a as [| x a IH]; simpl; [reflexivity | now rewrite IH].
Qed.

Lemma skipn_step {A : Type} (l : list A) (k : nat) :
  (k < length l)%nat -> exists x, skipn k l = x :: skipn (S k) l.
Proof.
  revert k. induction l as [| y l IH]; intros k Hk; simpl in Hk; [lia |].
  destruct k as [| k].
  - exists y. reflexivity.
  - destruct (IH k) as [x Hx]; [lia |]. exists x. exact Hx.
Qed.

(** Storing zero at the next index of a partly zeroed buffer. *)
Lemma listStore_zero_prefix (l : list real) (k : nat) :
  (k < length l)%nat ->
  listStore (repeat 0 k ++ skipn k l) k 0 = repeat 0 (S k) ++ skipn (S k) l.
Proof.
  intros Hk. destruct (skipn_step l k Hk) as [x Hx]. rewrite Hx.
  pose proof (listStore_app_length (repeat 0 k) (x :: skipn (S k) l) 0) as Hst.
  rewrite repeat_length in Hst. rewrite Hst. cbn [listStore].
  change (repeat 0 (S k)) with (0 :: repeat 0 k).
  rewrite repeat_cons, <- app_assoc. reflexivity.
Qed.

Lemma zeroImposedState_loop (plus minus : list real) (k : nat) :
  (k <= length plus)%nat -> (k <= length minus)%nat ->
  forLoop k Common.zeroImposedState_body (plus, minus) =
  (repeat 0 k ++ skipn k plus, repeat 0 k ++ skipn k minus).
Proof.
  induction k as [| k IH]; intros Hp Hm.
  - reflexivity.
  - simpl forLoop. rewrite IH by lia.
    unfold Common.zeroImposedState_body.
    rewrite !listStore_zero_prefix by lia. reflexivity.
Qed.

Lemma zeroImposedState_all (size : nat) (plus minus : list real) :
  length plus = size -> length minus = size ->
  forLoop size Common.zeroImposedState_body (plus, minus) =
  (repeat 0 size, repeat 0 size).
Proof.
  intros Hp Hm. rewrite zeroImposedState_loop by lia.
  rewrite <- Hp at 2. rewrite <- Hm at 3.
  rewrite !skipn_all, !app_nil_r. reflexivity.
Qed.

(** C10. The two output buffers of [postcomputeImposedStateFromNewStress]
    do not depend on what the buffers held on entry: the first loop
    overwrites every entry of both with zero, so two runs that differ only
    in the initial contents of [imposedStatePlus] and [imposedStateMinus]
    return the same buffers, whatever the two kernels compute. *)
Theorem postcomputeImposedStateFromNewStress_ignores_buffers
    (numPaddedPoints CONVERGENCE_ORDER QInterpolated_size : nat)
    (computeImposedStateM_execute computeImposedStateP_execute :
       list real -> (nat -> nat -> real) -> list real -> real ->
       list real -> list real)
    (faultStresses : FaultStresses.t) (tractionResults : TractionResults.t)
    (impedanceMatrices : ImpedanceMatrices)
    (imposedStatePlus imposedStateMinus : list real)
    (imposedStatePlus' imposedStateMinus' : list real)
    (qInterpolatedPlus qInterpolatedMinus : nat -> list real)
    (timeWeights : nat -> real) :
  length imposedStatePlus = QInterpolated_size ->
  length imposedStateMinus = QInterpolated_size ->
  length imposedStatePlus' = QInterpolated_size ->
  length imposedStateMinus' = QInterpolated_size ->
  forLoop QInterpolated_size Common.zeroImposedState_body
    (imposedStatePlus, imposedStateMinus) =
    (repeat 0 QInterpolated_size, repeat 0 QInterpolated_size) /\
  Common.postcomputeImposedStateFromNewStress numPaddedPoints
    CONVERGENCE_ORDER QInterpolated_size
    computeImposedStateM_execute computeImposedStateP_execute
    faultStresses tractionResults impedanceMatrices
    imposedStatePlus imposedStateMinus
    qInterpolatedPlus qInterpolatedMinus timeWeights =
  Common.postcomputeImposedStateFromNewStress numPaddedPoints
    CONVERGENCE_ORDER QInterpolated_size
    computeImposedStateM_execute computeImposedStateP_execute
    faultStresses tractionResults impedanceMatrices
    imposedStatePlus' imposedStateMinus'
    qInterpolatedPlus qInterpolatedMinus timeWeights.
Proof.
  intros Hp Hm Hp' Hm'.
  split; [apply zeroImposedState_all; assumption |].
  unfold Common.postcomputeImposedStateFromNewStress.
  rewrite (zeroImposedState_all QInterpolated_size imposedStatePlus
             imposedStateMinus Hp Hm).
  rewrite (zeroImposedState_all QInterpolated_size imposedStatePlus'
             imposedStateMinus' Hp' Hm').
  reflexivity.
Qed.

Lemma postcomputeImposedStateFromNewStress_ignores_buffers_witness :
  Common.postcomputeImposedStateFromNewStress 1 2 2 sampleKernel sampleKernel
    sampleFaultStresses sampleTractionResults sampleImpedanceMatrices
    [1; 2] [3; 4] (fun _ => []) (fun _ => []) (fun _ => 1 / 2) =
  Common.postcomputeImposedStateFromNewStress 1 2 2 sampleKernel sampleKernel
    sampleFaultStresses sampleTractionResults sampleImpedanceMatrices
    [5; 6] [7; 8] (fun _ => []) (fun _ => []) (fun _ => 1 / 2).
Proof.
  apply (postcomputeImposedStateFromNewStress_ignores_buffers 1 2 2
           sampleKernel sampleKernel sampleFaultStresses
           sampleTractionResults sampleImpedanceMatrices
           [1; 2] [3; 4] [5; 6] [7; 8]); reflexivity.
Defined.

(** ** Further properties of the friction stages *)

Lemma magnitude_scale (c x y : R) :
  0 <= c -> magnitude (x * c) (y * c) = c * magnitude x y.
Proof.
  intros Hc. unfold magnitude.
  replace (x * c * (x * c) + y * c * (y * c))
    with (c * c * (x * x + y * y)) by ring.
  rewrite sqrt_mult_alt by nra.
  rewrite sqrt_square by exact Hc. reflexivity.
Qed.


(** X1. Coulomb bound.  With a positive impedance [etaS], its inverse in
    [invEtaS] and a positive strength, the final total shear traction
    (initial stress plus output traction) at a point has the magnitude
    [min(|T|, strength)] of the predicted magnitude and the strength, and
    each of its components is the predicted component times the common
    non-negative factor [min(|T|, strength) / |T|] when [|T| > 0]. *)
Theorem calcSlipRateAndTraction_coulomb
    (numPaddedPoints : nat) {SpecT : Type}
    (this : LinearSlipWeakeningLaw SpecT)
    (faultStresses : FaultStresses.t) (tractionResults : TractionResults.t)
    (strength : nat -> real) (timeIndex ltsFace p : nat) :
  (p < numPaddedPoints)%nat ->
  0 < strength p ->
  0 < etaS (impAndEta this ltsFace) ->
  invEtaS (impAndEta this ltsFace) = 1 / etaS (impAndEta this ltsFace) ->
  let r :=
    calcSlipRateAndTraction numPaddedPoints faultStresses tractionResults
      strength timeIndex ltsFace this in
  let T1 :=
    initialStressInFaultCS this ltsFace p 3%nat +
    FaultStresses.traction1 faultStresses timeIndex p in
  let T2 :=
    initialStressInFaultCS this ltsFace p 5%nat +
    FaultStresses.traction2 faultStresses timeIndex p in
  let final1 :=
    initialStressInFaultCS this ltsFace p 3%nat +
    TractionResults.traction1 (snd r) timeIndex p in
  let final2 :=
    initialStressInFaultCS this ltsFace p 5%nat +
    TractionResults.traction2 (snd r) timeIndex p in
  magnitude final1 final2 = Rmin (magnitude T1 T2) (strength p) /\
  (0 < magnitude T1 T2 ->
   final1 = T1 * (Rmin (magnitude T1 T2) (strength p) / magnitude T1 T2) /\
   final2 = T2 * (Rmin (magnitude T1 T2) (strength p) / magnitude T1 T2)).
Proof.
  intros Hp Hs He Hinv r T1 T2 final1 final2.
  destruct (calcSlipRateAndTraction_point numPaddedPoints faultStresses
              tractionResults strength timeIndex ltsFace this p Hp)
    as (_ & _ & _ & _ & _ & Ht1 & Ht2 & _).
  fold r in Ht1, Ht2.
  assert (Hne : etaS (impAndEta this ltsFace) <> 0) by lra.
  pose proof (magnitude_nonneg T1 T2) as Hmag.
  unfold final1, final2. rewrite Ht1, Ht2.
  unfold traction1At, traction2At, slipRate1At, slipRate2At, divisorAt,
    slipRateMagnitudeAt, divisor, totalTraction1At, totalTraction2At.
  fold T1 T2. rewrite Hinv.
  replace (FaultStresses.traction1 faultStresses timeIndex p)
    with (T1 - initialStressInFaultCS this ltsFace p 3%nat)
    by (unfold T1; ring).
  replace (FaultStresses.traction2 faultStresses timeIndex p)
    with (T2 - initialStressInFaultCS this ltsFace p 5%nat)
    by (unfold T2; ring).
  clearbody T1 T2.
  destruct (Rle_or_lt (magnitude T1 T2) (strength p)) as [Hle | Hgt].
  - (* locked: the slip rate is zero and the traction is the prediction *)
    rewrite Rmax_0_of_nonpos.
    2:{ unfold Rdiv. rewrite Rmult_1_l.
        pose proof (Rinv_0_lt_compat _ He). nra. }
    rewrite Rmin_left by exact Hle.
    assert (Hf1 : initialStressInFaultCS this ltsFace p 3%nat +
                  (T1 - initialStressInFaultCS this ltsFace p 3%nat -
                   etaS (impAndEta this ltsFace) *
                   (0 * T1 / (strength p + etaS (impAndEta this ltsFace) * 0)))
                  = T1).
    { unfold Rdiv. ring. }
    assert (Hf2 : initialStressInFaultCS this ltsFace p 5%nat +
                  (T2 - initialStressInFaultCS this ltsFace p 5%nat -
                   etaS (impAndEta this ltsFace) *
                   (0 * T2 / (strength p + etaS (impAndEta this ltsFace) * 0)))
                  = T2).
    { unfold Rdiv. ring. }
    rewrite Hf1, Hf2. split; [reflexivity |].
    intros Hpos. split; field; lra.
  - (* sliding: the divisor is the predicted magnitude *)
    assert (Hrate :
      Rmax 0 ((magnitude T1 T2 - strength p) *
              (1 / etaS (impAndEta this ltsFace))) =
      (magnitude T1 T2 - strength p) / etaS (impAndEta this ltsFace)).
    { rewrite Rmax_0_of_nonneg; [field; exact Hne |].
      apply Rmult_le_pos; [lra |].
      apply Rlt_le. apply Rdiv_lt_0_compat; lra. }
    rewrite Hrate.
    assert (Hdiv :
      strength p + etaS (impAndEta this ltsFace) *
        ((magnitude T1 T2 - strength p) / etaS (impAndEta this ltsFace)) =
      magnitude T1 T2).
    { field. exact Hne. }
    rewrite Hdiv. rewrite Rmin_right by lra.
    assert (Hf1 : initialStressInFaultCS this ltsFace p 3%nat +
                  (T1 - initialStressInFaultCS this ltsFace p 3%nat -
                   etaS (impAndEta this ltsFace) *
                   ((magnitude T1 T2 - strength p) /
                    etaS (impAndEta this ltsFace) * T1 / magnitude T1 T2))
                  = T1 * (strength p / magnitude T1 T2)).
    { field. split; lra. }
    assert (Hf2 : initialStressInFaultCS this ltsFace p 5%nat +
                  (T2 - initialStressInFaultCS this ltsFace p 5%nat -
                   etaS (impAndEta this ltsFace) *
                   ((magnitude T1 T2 - strength p) /
                    etaS (impAndEta this ltsFace) * T2 / magnitude T1 T2))
                  = T2 * (strength p / magnitude T1 T2)).
    { field. split; lra. }
    rewrite Hf1, Hf2. split; [| intros _; split; reflexivity].
    rewrite magnitude_scale.
    + field. lra.
    + apply Rlt_le. apply Rdiv_lt_0_compat; lra.
Qed.

Lemma calcSlipRateAndTraction_coulomb_witness :
  let this := sampleLaw impedance2 0 zeros zeros in
  let r :=
    calcSlipRateAndTraction 1 sampleFaultStresses sampleTractionResults
      (fun _ => 5) 0 0 this in
  magnitude
    (initialStressInFaultCS this 0%nat 0%nat 3%nat +
     TractionResults.traction1 (snd r) 0%nat 0%nat)
    (initialStressInFaultCS this 0%nat 0%nat 5%nat +
     TractionResults.traction2 (snd r) 0%nat 0%nat) =
  Rmin
    (magnitude
       (initialStressInFaultCS this 0%nat 0%nat 3%nat +
        FaultStresses.traction1 sampleFaultStresses 0%nat 0%nat)
       (initialStressInFaultCS this 0%nat 0%nat 5%nat +
        FaultStresses.traction2 sampleFaultStresses 0%nat 0%nat)) 5.
Proof.
  intros this r.
  pose proof (calcSlipRateAndTraction_coulomb 1 this sampleFaultStresses
                sampleTractionResults (fun _ => 5) 0 0 0) as Hc.
  destruct Hc as (Hmag & _).
  - lia.
  - lra.
  - simpl. lra.
  - simpl. lra.
  - exact Hmag.
Defined.

Lemma inLoop_outside {A : Type} (row k c i : nat) (x y : A) :
  c <> row \/ (k <= i)%nat -> inLoop row k c i x y = y.
Proof.
  intros Hout. unfold inLoop.
  destruct (Nat.eqb_spec c row) as [Heq | Hne]; [| reflexivity].
  destruct (Nat.ltb_spec i k) as [Hlt | Hge]; [| reflexivity].
  destruct Hout as [Hc | Hk]; [contradiction | lia].
Qed.



(** X3. At every point of the face [calcSlipRateAndTraction] advances the
    directional slips by forward Euler with the new slip rates,
    [slip += slipRate * deltaT], and leaves in the member arrays
    [traction1], [traction2] the tractions it wrote to [tractionResults]
    for this sub-interval. *)
Theorem calcSlipRateAndTraction_slip_integration
    (numPaddedPoints : nat) {SpecT : Type}
    (this : LinearSlipWeakeningLaw SpecT)
    (faultStresses : FaultStresses.t) (tractionResults : TractionResults.t)
    (strength : nat -> real) (timeIndex ltsFace p : nat) :
  (p < numPaddedPoints)%nat ->
  let r :=
    calcSlipRateAndTraction numPaddedPoints faultStresses tractionResults
      strength timeIndex ltsFace this in
  slip1 (fst r) ltsFace p =
    slip1 this ltsFace p + slipRate1 (fst r) ltsFace p * deltaT this timeIndex /\
  slip2 (fst r) ltsFace p =
    slip2 this ltsFace p + slipRate2 (fst r) ltsFace p * deltaT this timeIndex /\
  traction1 (fst r) ltsFace p = TractionResults.traction1 (snd r) timeIndex p /\
  traction2 (fst r) ltsFace p = TractionResults.traction2 (snd r) timeIndex p /\
  TractionResults.traction1 (snd r) timeIndex p =
    FaultStresses.traction1 faultStresses timeIndex p -
    etaS (impAndEta this ltsFace) * slipRate1 (fst r) ltsFace p /\
  TractionResults.traction2 (snd r) timeIndex p =
    FaultStresses.traction2 faultStresses timeIndex p -
    etaS (impAndEta this ltsFace) * slipRate2 (fst r) ltsFace p.
Proof.
  intros Hp r.
  destruct (calcSlipRateAndTraction_point numPaddedPoints faultStresses
              tractionResults strength timeIndex ltsFace this p Hp)
    as (_ & H1 & H2 & Hs1 & Hs2 & Ht1 & Ht2 & Hq1 & Hq2).
  fold r in H1, H2, Hs1, Hs2, Ht1, Ht2, Hq1, Hq2.
  rewrite Hs1, Hs2, Hq1, Hq2, Ht1, Ht2, H1, H2.
  repeat split.
Qed.

Lemma calcSlipRateAndTraction_slip_integration_witness :
  let this := sampleLaw impedance2 0 zeros zeros in
  let r :=
    calcSlipRateAndTraction 1 sampleFaultStresses sampleTractionResults
      (fun _ => 5) 0 0 this in
  slip1 (fst r) 0%nat 0%nat =
    slip1 this 0%nat 0%nat + slipRate1 (fst r) 0%nat 0%nat * deltaT this 0%nat.
Proof.
  intros this r.
  apply (calcSlipRateAndTraction_slip_integration 1
           (sampleLaw impedance2 0 zeros zeros) sampleFaultStresses
           sampleTractionResults (fun _ => 5) 0 0 0).
  lia.
Defined.

(** X4. [calcSlipRateAndTraction] writes row [ltsFace] of its member arrays
    and row [timeIndex] of [tractionResults], at the points below
    [numPaddedPoints], and nothing else: every other entry of the seven
    member arrays and of the two result arrays keeps its value. *)
Theorem calcSlipRateAndTraction_frame
    (numPaddedPoints : nat) {SpecT : Type}
    (this : LinearSlipWeakeningLaw SpecT)
    (faultStresses : FaultStresses.t) (tractionResults : TractionResults.t)
    (strength : nat -> real) (timeIndex ltsFace : nat) (f o p : nat) :
  let r :=
    calcSlipRateAndTraction numPaddedPoints faultStresses tractionResults
      strength timeIndex ltsFace this in
  (f <> ltsFace \/ (numPaddedPoints <= p)%nat ->
   slipRateMagnitude (fst r) f p = slipRateMagnitude this f p /\
   slipRate1 (fst r) f p = slipRate1 this f p /\
   slipRate2 (fst r) f p = slipRate2 this f p /\
   slip1 (fst r) f p = slip1 this f p /\
   slip2 (fst r) f p = slip2 this f p /\
   traction1 (fst r) f p = traction1 this f p /\
   traction2 (fst r) f p = traction2 this f p) /\
  (o <> timeIndex \/ (numPaddedPoints <= p)%nat ->
   TractionResults.traction1 (snd r) o p =
     TractionResults.traction1 tractionResults o p /\
   TractionResults.traction2 (snd r) o p =
     TractionResults.traction2 tractionResults o p).
Proof.
  intros r.
  destruct (calcSlipRateAndTraction_loop faultStresses tractionResults
              strength timeIndex ltsFace this numPaddedPoints)
    as (_ & Hm & H1 & H2 & Hs1 & Hs2 & Ht1 & Ht2 & Hq1 & Hq2).
  fold (calcSlipRateAndTraction numPaddedPoints faultStresses tractionResults
          strength timeIndex ltsFace this) in Hm, H1, H2, Hs1, Hs2, Ht1, Ht2,
    Hq1, Hq2.
  fold r in Hm, H1, H2, Hs1, Hs2, Ht1, Ht2, Hq1, Hq2.
  split; intros Hout.
  - rewrite Hm, H1, H2, Hs1, Hs2, Hq1, Hq2.
    rewrite !inLoop_outside by exact Hout. repeat split.
  - rewrite Ht1, Ht2. rewrite !inLoop_outside by exact Hout. split; reflexivity.
Qed.

Lemma calcSlipRateAndTraction_frame_witness :
  let this := sampleLaw impedance2 0 zeros zeros in
  let r :=
    calcSlipRateAndTraction 1 sampleFaultStresses sampleTractionResults
      (fun _ => 5) 0 0 this in
  slipRateMagnitude (fst r) 1%nat 0%nat = slipRateMagnitude this 1%nat 0%nat /\
  TractionResults.traction1 (snd r) 0%nat 1%nat =
    TractionResults.traction1 sampleTractionResults 0%nat 1%nat.
Proof.
  intros this r.
  pose proof (calcSlipRateAndTraction_frame 1 this sampleFaultStresses
                sampleTractionResults (fun _ => 5) 0 0 1 0 0) as Hf1.
  pose proof (calcSlipRateAndTraction_frame 1 this sampleFaultStresses
                sampleTractionResults (fun _ => 5) 0 0 0 0 1) as Hf2.
  cbv zeta in Hf1, Hf2. fold r in Hf1, Hf2.
  destruct Hf1 as (Hmember & _). destruct Hf2 as (_ & Hresult).
  split.
  - apply Hmember. left. lia.
  - apply Hresult. right. lia.
Defined.

(** *** [frictionFunctionHook] and the whole of [updateFrictionAndSlip] *)

Lemma keepsParameters_refl {SpecT : Type} (st : LinearSlipWeakeningLaw SpecT) :
  keepsParameters st st.
Proof. repeat split. Qed.

Lemma keepsDiagnostics_refl {SpecT : Type} (st : LinearSlipWeakeningLaw SpecT) :
  keepsDiagnostics st st.
Proof. repeat split. Qed.

Lemma keepsParameters_trans {SpecT : Type}
    (a b c : LinearSlipWeakeningLaw SpecT) :
  keepsParameters a b -> keepsParameters b c -> keepsParameters a c.
Proof.
  intros (H1 & H2 & H3 & H4 & H5 & H6 & H7) (G1 & G2 & G3 & G4 & G5 & G6 & G7).
  repeat split; congruence.
Qed.

Lemma keepsDiagnostics_trans {SpecT : Type}
    (a b c : LinearSlipWeakeningLaw SpecT) :
  keepsDiagnostics a b -> keepsDiagnostics b c -> keepsDiagnostics a c.
Proof.
  intros (H1 & H2 & H3 & H4) (G1 & G2 & G3 & G4).
  repeat split; congruence.
Qed.

Section Stages.

Variable numPaddedPoints : nat.
Variable resample : nat -> nat -> real.
Context {SpecT : Type} `{SpecializationT SpecT}.
Variables timeIndex ltsFace : nat.
Variable this : LinearSlipWeakeningLaw SpecT.

Lemma calcStrengthHook_keeps
    (faultStresses : FaultStresses.t) (strength : nat -> real) :
  let st :=
    fst (calcStrengthHook numPaddedPoints faultStresses strength timeIndex
           ltsFace this) in
  keepsParameters this st /\ keepsDiagnostics this st.
Proof.
  unfold calcStrengthHook.
  apply (forLoop_invariant
           (fun _ s => keepsParameters this (fst s) /\
                       keepsDiagnostics this (fst s))).
  - split; [apply keepsParameters_refl | apply keepsDiagnostics_refl].
  - intros k [st str] _ Hs. unfold calcStrengthHook_body.
    destruct (strengthHook _ _ _ _) as [spec args]. exact Hs.
Qed.

Lemma calcSlipRateAndTraction_keeps
    (faultStresses : FaultStresses.t) (tractionResults : TractionResults.t)
    (strength : nat -> real) :
  let st :=
    fst (calcSlipRateAndTraction numPaddedPoints faultStresses
           tractionResults strength timeIndex ltsFace this) in
  (keepsParameters this st /\ keepsDiagnostics this st) /\
  deltaT st = deltaT this /\ mu st = mu this /\
  specialization st = specialization this.
Proof.
  unfold calcSlipRateAndTraction.
  apply (forLoop_invariant
           (fun _ s =>
              (keepsParameters this (fst s) /\
               keepsDiagnostics this (fst s)) /\
              deltaT (fst s) = deltaT this /\ mu (fst s) = mu this /\
              specialization (fst s) = specialization this)).
  - repeat split.
  - intros k [st tr] _ Hs. exact Hs.
Qed.

Lemma calcStateVariableHook_keeps (stateVariable : nat -> real) :
  let st :=
    fst (calcStateVariableHook numPaddedPoints resample stateVariable
           timeIndex ltsFace this) in
  (keepsParameters this st /\ keepsDiagnostics this st) /\
  deltaT st = deltaT this /\ mu st = mu this /\
  slipRateMagnitude st = slipRateMagnitude this.
Proof.
  unfold calcStateVariableHook.
  pose proof (forLoop_invariant
           (fun _ s =>
              (keepsParameters this (fst s) /\
               keepsDiagnostics this (fst s)) /\
              deltaT (fst s) = deltaT this /\ mu (fst s) = mu this /\
              slipRateMagnitude (fst s) = slipRateMagnitude this)
           numPaddedPoints
           (calcStateVariableHook_body
              (resampleParameter_execute numPaddedPoints resample
                 (slipRateMagnitude this ltsFace)) timeIndex ltsFace)
           (this, stateVariable)) as Hl.
  destruct (forLoop numPaddedPoints _ _) as [st sv].
  destruct (stateVariableHook _ _ _ _) as [spec sv']. simpl.
  apply Hl.
  - repeat split.
  - intros k [st' sv''] _ Hs. exact Hs.
Qed.

Lemma frictionFunctionHook_loop (stateVariable : nat -> real) (k : nat) :
  let st := forLoop k (frictionFunctionHook_body stateVariable ltsFace) this in
  ((keepsParameters this st /\ keepsDiagnostics this st) /\
   deltaT st = deltaT this /\
   slipRateMagnitude st = slipRateMagnitude this /\
   accumulatedSlipMagnitude st = accumulatedSlipMagnitude this) /\
  (forall f p,
     mu st f p =
     inLoop ltsFace k f p
       (muS this ltsFace p -
        (muS this ltsFace p - muD this ltsFace p) * stateVariable p)
       (mu this f p)).
Proof.
  induction k as [| k IH].
  - simpl. unfold inLoop.
    repeat split; intros; rewrite ?andb_false_r; reflexivity.
  - simpl forLoop. destruct IH as ((Hk & Hd & Hr & Ha) & Hmu).
    remember (forLoop k (frictionFunctionHook_body stateVariable ltsFace) this)
      as st.
    unfold frictionFunctionHook_body.
    split; [split; [exact Hk | split; [exact Hd | split; [exact Hr | exact Ha]]] |].
    intros f p. cbn -[Nat.ltb Nat.eqb].
    destruct Hk as ((_ & _ & _ & _ & HS & HD & _) & _).
    rewrite HS, HD. unfold store2, store1, inLoop in *.
    case_indices; rewrite ?Hmu; case_indices; try lia; reflexivity.
Qed.

End Stages.

(** X5. [frictionFunctionHook] sets the friction coefficient of every point
    of the face to [muS - (muS - muD) * stateVariable] and leaves every other
    entry of [mu] alone.  For a state variable in [[0, 1]] and
    [muD <= muS] the new coefficient lies between [muD] and [muS]; it is
    [muS] at state variable [0] and [muD] at state variable [1]. *)
Theorem frictionFunctionHook_interpolates
    (numPaddedPoints : nat) {SpecT : Type}
    (this : LinearSlipWeakeningLaw SpecT)
    (stateVariable : nat -> real) (ltsFace f p : nat) :
  let st := frictionFunctionHook numPaddedPoints stateVariable ltsFace this in
  ((p < numPaddedPoints)%nat ->
   mu st ltsFace p =
     muS this ltsFace p -
     (muS this ltsFace p - muD this ltsFace p) * stateVariable p /\
   (stateVariable p = 0 -> mu st ltsFace p = muS this ltsFace p) /\
   (stateVariable p = 1 -> mu st ltsFace p = muD this ltsFace p) /\
   (0 <= stateVariable p <= 1 ->
    muD this ltsFace p <= muS this ltsFace p ->
    muD this ltsFace p <= mu st ltsFace p <= muS this ltsFace p)) /\
  (f <> ltsFace \/ (numPaddedPoints <= p)%nat -> mu st f p = mu this f p).
Proof.
  intros st.
  destruct (frictionFunctionHook_loop ltsFace this stateVariable
              numPaddedPoints) as (_ & Hmu).
  fold (frictionFunctionHook numPaddedPoints stateVariable ltsFace this) in Hmu.
  fold st in Hmu.
  split.
  - intros Hp. rewrite Hmu, inLoop_inside by exact Hp.
    split; [reflexivity | split; [| split]].
    + intros ->. ring.
    + intros ->. ring.
    + intros Hsv Hle. split; nra.
  - intros Hout. rewrite Hmu. apply inLoop_outside. exact Hout.
Qed.

Lemma frictionFunctionHook_interpolates_witness :
  let this := sampleLaw impedance2 0 zeros zeros in
  let st := frictionFunctionHook 1 (fun _ => 1 / 4) 0 this in
  muD this 0%nat 0%nat <= mu st 0%nat 0%nat <= muS this 0%nat 0%nat.
Proof.
  intros this st.
  pose proof (frictionFunctionHook_interpolates 1 this (fun _ => 1 / 4) 0 0 0)
    as Hi.
  cbv zeta in Hi. fold st in Hi.
  destruct Hi as (Hin & _).
  destruct Hin as (_ & _ & _ & Hrange); [lia |].
  apply Hrange; simpl; lra.
Defined.

Section Update.

Variable numPaddedPoints : nat.
Variable resample : nat -> nat -> real.
Context {SpecT : Type} `{SpecializationT SpecT}.
Variable faultStresses : FaultStresses.t.
Variable tractionResults : TractionResults.t.
Variables stateVariableBuffer strengthBuffer : nat -> real.
Variables ltsFace timeIndex : nat.
Variable this : LinearSlipWeakeningLaw SpecT.

(** The four stages in sequence. *)
Lemma updateFrictionAndSlip_stages :
  let r1 :=
    calcStrengthHook numPaddedPoints faultStresses strengthBuffer timeIndex
      ltsFace this in
  let r2 :=
    calcSlipRateAndTraction numPaddedPoints faultStresses tractionResults
      (snd r1) timeIndex ltsFace (fst r1) in
  let r3 :=
    calcStateVariableHook numPaddedPoints resample stateVariableBuffer
      timeIndex ltsFace (fst r2) in
  updateFrictionAndSlip numPaddedPoints resample faultStresses tractionResults
    stateVariableBuffer strengthBuffer ltsFace timeIndex this =
  (frictionFunctionHook numPaddedPoints (snd r3) ltsFace (fst r3),
   snd r2, snd r3, snd r1).
Proof.
  intros r1 r2 r3. unfold updateFrictionAndSlip.
  subst r3 r2 r1.
  destruct (calcStrengthHook _ _ _ _ _ _) as [st1 str]. cbn [fst snd].
  destruct (calcSlipRateAndTraction _ _ _ _ _ _ _) as [st2 tr]. cbn [fst snd].
  destruct (calcStateVariableHook _ _ _ _ _ _) as [st3 sv]. reflexivity.
Qed.

End Update.

(** X6. [updateFrictionAndSlip] never writes the per-face parameters
    (initial stress, impedances, [dC], [muS], [muD], cohesion), the clock
    [mFullUpdateTime], the two pending flags or the two times they guard,
    whatever the hooks of the specialization do. *)
Theorem updateFrictionAndSlip_keeps
    (numPaddedPoints : nat) (resample : nat -> nat -> real)
    {SpecT : Type} `{SpecializationT SpecT}
    (this : LinearSlipWeakeningLaw SpecT)
    (faultStresses : FaultStresses.t) (tractionResults : TractionResults.t)
    (stateVariableBuffer strengthBuffer : nat -> real)
    (ltsFace timeIndex : nat) :
  let r :=
    updateFrictionAndSlip numPaddedPoints resample faultStresses
      tractionResults stateVariableBuffer strengthBuffer ltsFace timeIndex
      this in
  keepsParameters this (fst (fst (fst r))) /\
  keepsDiagnostics this (fst (fst (fst r))).
Proof.
  intros r. unfold r. rewrite updateFrictionAndSlip_stages. cbn [fst].
  set (r1 := calcStrengthHook numPaddedPoints faultStresses strengthBuffer
               timeIndex ltsFace this).
  set (r2 := calcSlipRateAndTraction numPaddedPoints faultStresses
               tractionResults (snd r1) timeIndex ltsFace (fst r1)).
  set (r3 := calcStateVariableHook numPaddedPoints resample
               stateVariableBuffer timeIndex ltsFace (fst r2)).
  destruct (calcStrengthHook_keeps numPaddedPoints timeIndex ltsFace this
              faultStresses strengthBuffer) as (Hp1 & Hd1).
  destruct (calcSlipRateAndTraction_keeps numPaddedPoints timeIndex ltsFace
              (fst r1) faultStresses tractionResults (snd r1))
    as ((Hp2 & Hd2) & _).
  destruct (calcStateVariableHook_keeps numPaddedPoints resample timeIndex
              ltsFace (fst r2) stateVariableBuffer) as ((Hp3 & Hd3) & _).
  destruct (frictionFunctionHook_loop ltsFace (fst r3) (snd r3)
              numPaddedPoints) as (((Hp4 & Hd4) & _) & _).
  fold r1 in Hp1, Hd1. fold r2 in Hp2, Hd2. fold r3 in Hp3, Hd3.
  split.
  - eapply keepsParameters_trans; [| exact Hp4].
    eapply keepsParameters_trans; [| exact Hp3].
    eapply keepsParameters_trans; [exact Hp1 | exact Hp2].
  - eapply keepsDiagnostics_trans; [| exact Hd4].
    eapply keepsDiagnostics_trans; [| exact Hd3].
    eapply keepsDiagnostics_trans; [exact Hd1 | exact Hd2].
Qed.

(** X7. After [updateFrictionAndSlip] the slip-rate magnitude of every point
    of the face is [max(0, (|T| - strength) * invEtaS)] for the strength
    that the call returns in [strengthBuffer], hence non-negative, whatever
    the hooks of the specialization do. *)
Theorem updateFrictionAndSlip_slipRateMagnitude
    (numPaddedPoints : nat) (resample : nat -> nat -> real)
    {SpecT : Type} `{SpecializationT SpecT}
    (this : LinearSlipWeakeningLaw SpecT)
    (faultStresses : FaultStresses.t) (tractionResults : TractionResults.t)
    (stateVariableBuffer strengthBuffer : nat -> real)
    (ltsFace timeIndex p : nat) :
  (p < numPaddedPoints)%nat ->
  let r :=
    updateFrictionAndSlip numPaddedPoints resample faultStresses
      tractionResults stateVariableBuffer strengthBuffer ltsFace timeIndex
      this in
  let st := fst (fst (fst r)) in
  let strength := snd r in
  let T1 :=
    initialStressInFaultCS this ltsFace p 3%nat +
    FaultStresses.traction1 faultStresses timeIndex p in
  let T2 :=
    initialStressInFaultCS this ltsFace p 5%nat +
    FaultStresses.traction2 faultStresses timeIndex p in
  slipRateMagnitude st ltsFace p =
    Rmax 0 ((magnitude T1 T2 - strength p) * invEtaS (impAndEta this ltsFace)) /\
  0 <= slipRateMagnitude st ltsFace p.
Proof.
  intros Hp r st strength T1 T2.
  unfold st, strength, r. rewrite updateFrictionAndSlip_stages.
  cbn [fst snd].
  set (r1 := calcStrengthHook numPaddedPoints faultStresses strengthBuffer
               timeIndex ltsFace this).
  set (r2 := calcSlipRateAndTraction numPaddedPoints faultStresses
               tractionResults (snd r1) timeIndex ltsFace (fst r1)).
  set (r3 := calcStateVariableHook numPaddedPoints resample
               stateVariableBuffer timeIndex ltsFace (fst r2)).
  destruct (calcStrengthHook_keeps numPaddedPoints timeIndex ltsFace this
              faultStresses strengthBuffer) as ((Hi & He & _) & _).
  fold r1 in Hi, He.
  destruct (calcSlipRateAndTraction_point numPaddedPoints faultStresses
              tractionResults (snd r1) timeIndex ltsFace (fst r1) p Hp)
    as (Hm & _).
  fold r2 in Hm.
  destruct (calcStateVariableHook_keeps numPaddedPoints resample timeIndex
              ltsFace (fst r2) stateVariableBuffer) as (_ & _ & _ & Hr3).
  fold r3 in Hr3.
  destruct (frictionFunctionHook_loop ltsFace (fst r3) (snd r3)
              numPaddedPoints) as ((_ & _ & Hr4 & _) & _).
  fold (frictionFunctionHook numPaddedPoints (snd r3) ltsFace (fst r3)) in Hr4.
  rewrite Hr4, Hr3, Hm.
  unfold slipRateMagnitudeAt, totalTraction1At, totalTraction2At.
  rewrite Hi, He. fold T1 T2.
  split; [reflexivity | apply Rmax_0_nonneg].
Qed.

Lemma updateFrictionAndSlip_slipRateMagnitude_witness :
  let this := sampleLaw impedance2 0 zeros zeros in
  let r :=
    updateFrictionAndSlip 1 sampleResample sampleFaultStresses
      sampleTractionResults (fun _ => 0) (fun _ => 0) 0 0 this in
  0 <= slipRateMagnitude (fst (fst (fst r))) 0%nat 0%nat.
Proof.
  intros this r.
  apply (updateFrictionAndSlip_slipRateMagnitude 1 sampleResample this
           sampleFaultStresses sampleTractionResults (fun _ => 0)
           (fun _ => 0) 0 0 0).
  lia.
Defined.

(** X8. After [updateFrictionAndSlip] the friction coefficient of every
    point of the face is [muS - (muS - muD) * stateVariable] for the state
    variable that the call returns.  With a state-variable hook that
    changes nothing, [dC > 0] and [muD <= muS], that state variable lies in
    [[0, 1]] and the coefficient between [muD] and [muS]. *)
Theorem updateFrictionAndSlip_mu
    (numPaddedPoints : nat) (resample : nat -> nat -> real)
    {SpecT : Type} `{SpecializationT SpecT}
    (this : LinearSlipWeakeningLaw SpecT)
    (faultStresses : FaultStresses.t) (tractionResults : TractionResults.t)
    (stateVariableBuffer strengthBuffer : nat -> real)
    (ltsFace timeIndex p : nat) :
  (p < numPaddedPoints)%nat ->
  let r :=
    updateFrictionAndSlip numPaddedPoints resample faultStresses
      tractionResults stateVariableBuffer strengthBuffer ltsFace timeIndex
      this in
  let st := fst (fst (fst r)) in
  let stateVariable := snd (fst r) in
  mu st ltsFace p =
    muS this ltsFace p -
    (muS this ltsFace p - muD this ltsFace p) * stateVariable p /\
  ((forall s sv time f, stateVariableHook s sv time f = (s, sv)) ->
   0 < dC this ltsFace p ->
   muD this ltsFace p <= muS this ltsFace p ->
   0 <= stateVariable p <= 1 /\
   muD this ltsFace p <= mu st ltsFace p <= muS this ltsFace p).
Proof.
  intros Hp r st stateVariable.
  unfold st, stateVariable, r. rewrite updateFrictionAndSlip_stages.
  cbn [fst snd].
  set (r1 := calcStrengthHook numPaddedPoints faultStresses strengthBuffer
               timeIndex ltsFace this).
  set (r2 := calcSlipRateAndTraction numPaddedPoints faultStresses
               tractionResults (snd r1) timeIndex ltsFace (fst r1)).
  set (r3 := calcStateVariableHook numPaddedPoints resample
               stateVariableBuffer timeIndex ltsFace (fst r2)).
  destruct (calcStrengthHook_keeps numPaddedPoints timeIndex ltsFace this
              faultStresses strengthBuffer) as (Hp1 & _).
  destruct (calcSlipRateAndTraction_keeps numPaddedPoints timeIndex ltsFace
              (fst r1) faultStresses tractionResults (snd r1))
    as ((Hp2 & _) & _).
  destruct (calcStateVariableHook_keeps numPaddedPoints resample timeIndex
              ltsFace (fst r2) stateVariableBuffer) as ((Hp3 & _) & _).
  fold r1 in Hp1. fold r2 in Hp2. fold r3 in Hp3.
  pose proof (keepsParameters_trans _ _ _ Hp1 Hp2) as Hp12.
  pose proof (keepsParameters_trans _ _ _ Hp12 Hp3) as Hp13.
  destruct Hp12 as (_ & _ & _ & HdC & _).
  destruct Hp13 as (_ & _ & _ & _ & HS & HD & _).
  destruct (frictionFunctionHook_loop ltsFace (fst r3) (snd r3)
              numPaddedPoints) as (_ & Hmu).
  fold (frictionFunctionHook numPaddedPoints (snd r3) ltsFace (fst r3)) in Hmu.
  rewrite Hmu, inLoop_inside by exact Hp. rewrite HS, HD.
  split; [reflexivity |].
  intros Hid HdCpos Hle.
  destruct (calcStateVariableHook_stateVariable numPaddedPoints resample
              stateVariableBuffer timeIndex ltsFace (fst r2) p Hid Hp)
    as (_ & Hsv).
  fold r3 in Hsv. rewrite HdC in Hsv.
  assert (Hrange : 0 <= snd r3 p <= 1).
  { rewrite Hsv. split; [| apply Rmin_r].
    apply Rmin_glb; [| lra].
    apply Rmult_le_pos; [apply Rabs_pos |].
    apply Rlt_le. apply Rinv_0_lt_compat. exact HdCpos. }
  split; [exact Hrange |]. split; nra.
Qed.

Lemma updateFrictionAndSlip_mu_witness :
  let this := sampleLaw impedance2 0 zeros zeros in
  let r :=
    updateFrictionAndSlip 1 sampleResample sampleFaultStresses
      sampleTractionResults (fun _ => 0) (fun _ => 0) 0 0 this in
  0 <= snd (fst r) 0%nat <= 1 /\
  muD this 0%nat 0%nat <= mu (fst (fst (fst r))) 0%nat 0%nat
    <= muS this 0%nat 0%nat.
Proof.
  intros this r.
  pose proof (updateFrictionAndSlip_mu 1 sampleResample this
                sampleFaultStresses sampleTractionResults (fun _ => 0)
                (fun _ => 0) 0 0 0) as Hmu.
  destruct Hmu as (_ & Hrange).
  - lia.
  - apply Hrange.
    + exact NoSpecialization_stateVariableHook.
    + simpl. lra.
    + simpl. lra.
Defined.

(** X9. Across [updateFrictionAndSlip] the accumulated slip of every point
    of the face grows by the resampled slip rate of this same sub-interval
    times the time increment: the state-variable stage resamples the
    slip-rate magnitudes that the slip-rate stage has just written. *)
Theorem updateFrictionAndSlip_accumulatedSlip
    (numPaddedPoints : nat) (resample : nat -> nat -> real)
    {SpecT : Type} `{SpecializationT SpecT}
    (this : LinearSlipWeakeningLaw SpecT)
    (faultStresses : FaultStresses.t) (tractionResults : TractionResults.t)
    (stateVariableBuffer strengthBuffer : nat -> real)
    (ltsFace timeIndex p : nat) :
  (p < numPaddedPoints)%nat ->
  let r :=
    updateFrictionAndSlip numPaddedPoints resample faultStresses
      tractionResults stateVariableBuffer strengthBuffer ltsFace timeIndex
      this in
  let st := fst (fst (fst r)) in
  accumulatedSlipMagnitude st ltsFace p =
    accumulatedSlipMagnitude this ltsFace p +
    resampleParameter_execute numPaddedPoints resample
      (slipRateMagnitude st ltsFace) p * deltaT st timeIndex.
Proof.
  intros Hp r st.
  unfold st, r. rewrite updateFrictionAndSlip_stages. cbn [fst snd].
  set (r1 := calcStrengthHook numPaddedPoints faultStresses strengthBuffer
               timeIndex ltsFace this).
  set (r2 := calcSlipRateAndTraction numPaddedPoints faultStresses
               tractionResults (snd r1) timeIndex ltsFace (fst r1)).
  set (r3 := calcStateVariableHook numPaddedPoints resample
               stateVariableBuffer timeIndex ltsFace (fst r2)).
  pose proof (calcStrengthHook_accumulatedSlip numPaddedPoints timeIndex
                ltsFace this faultStresses strengthBuffer) as Ha1.
  pose proof (calcSlipRateAndTraction_accumulatedSlip numPaddedPoints
                timeIndex ltsFace (fst r1) faultStresses tractionResults
                (snd r1)) as Ha2.
  fold r1 in Ha1. fold r2 in Ha2.
  pose proof (calcStateVariableHook_accumulatedSlip numPaddedPoints resample
                stateVariableBuffer timeIndex ltsFace (fst r2) ltsFace p)
    as Ha3.
  cbv zeta in Ha3. rewrite inLoop_inside in Ha3 by exact Hp. fold r3 in Ha3.
  destruct (calcStateVariableHook_keeps numPaddedPoints resample timeIndex
              ltsFace (fst r2) stateVariableBuffer) as (_ & Hd3 & _ & Hr3).
  fold r3 in Hd3, Hr3.
  destruct (frictionFunctionHook_loop ltsFace (fst r3) (snd r3)
              numPaddedPoints) as ((_ & Hd4 & Hr4 & Ha4) & _).
  fold (frictionFunctionHook numPaddedPoints (snd r3) ltsFace (fst r3))
    in Hd4, Hr4, Ha4.
  rewrite Ha4, Hd4, Hr4, Hd3, Hr3, Ha3, Ha2, Ha1. reflexivity.
Qed.

Lemma updateFrictionAndSlip_accumulatedSlip_witness :
  let this := sampleLaw impedance2 0 zeros zeros in
  let r :=
    updateFrictionAndSlip 3 sampleResample sampleFaultStresses
      sampleTractionResults (fun _ => 0) (fun _ => 0) 0 0 this in
  let st := fst (fst (fst r)) in
  accumulatedSlipMagnitude st 0%nat 2%nat =
    accumulatedSlipMagnitude this 0%nat 2%nat +
    resampleParameter_execute 3 sampleResample
      (slipRateMagnitude st 0%nat) 2 * deltaT st 0%nat.
Proof.
  intros this r st.
  apply (updateFrictionAndSlip_accumulatedSlip 3 sampleResample this
           sampleFaultStresses sampleTractionResults (fun _ => 0)
           (fun _ => 0) 0 0 2).
  lia.
Defined.

(** *** The diagnostics, call by call *)

Lemma Rgtb_false (x y : R) : x <= y -> Rgtb x y = false.
Proof. intros Hxy. unfold Rgtb. destruct (Rgt_dec x y); [lra | reflexivity]. Qed.

Lemma Rgeb_true (x y : R) : x >= y -> Rgeb x y = true.
Proof. intros Hxy. unfold Rgeb. destruct (Rge_dec x y); [reflexivity | lra]. Qed.

Lemma Rgeb_false (x y : R) : x < y -> Rgeb x y = false.
Proof. intros Hxy. unfold Rgeb. destruct (Rge_dec x y); [lra | reflexivity]. Qed.

Lemma Rltb_true (x y : R) : x < y -> Rltb x y = true.
Proof. intros Hxy. unfold Rltb. destruct (Rlt_dec x y); [reflexivity | lra]. Qed.

Lemma Rltb_false (x y : R) : y <= x -> Rltb x y = false.
Proof. intros Hxy. unfold Rltb. destruct (Rlt_dec x y); [lra | reflexivity]. Qed.

Lemma savePeakSlipRateOutput_point
    (numPaddedPoints : nat) (slipRateMagnitude peakSlipRate : nat -> real)
    (p : nat) :
  Common.savePeakSlipRateOutput numPaddedPoints slipRateMagnitude peakSlipRate p
  = if Nat.ltb p numPaddedPoints
    then Rmax (peakSlipRate p) (slipRateMagnitude p)
    else peakSlipRate p.
Proof.
  unfold Common.savePeakSlipRateOutput. revert p.
  induction numPaddedPoints as [| k IH]; intros p; [reflexivity |].
  simpl forLoop. unfold store1 at 1.
  rewrite !IH. case_indices; try lia; reflexivity.
Qed.

(** X10. [savePeakSlipRateOutput] is a running maximum: at every point
    below [numPaddedPoints] the new peak is the maximum of the old peak and
    the slip rate, so it never decreases and is at least the slip rate;
    points past the end are untouched; a second call with the same slip
    rates changes nothing, and two calls with different slip rates give
    the same peaks in either order. *)
Theorem savePeakSlipRateOutput_running_maximum
    (numPaddedPoints : nat) (slipRate slipRate' peakSlipRate : nat -> real)
    (p : nat) :
  let peak :=
    Common.savePeakSlipRateOutput numPaddedPoints slipRate peakSlipRate in
  peakSlipRate p <= peak p /\
  ((p < numPaddedPoints)%nat ->
   peak p = Rmax (peakSlipRate p) (slipRate p) /\ slipRate p <= peak p) /\
  ((numPaddedPoints <= p)%nat -> peak p = peakSlipRate p) /\
  Common.savePeakSlipRateOutput numPaddedPoints slipRate peak p = peak p /\
  Common.savePeakSlipRateOutput numPaddedPoints slipRate' peak p =
  Common.savePeakSlipRateOutput numPaddedPoints slipRate
    (Common.savePeakSlipRateOutput numPaddedPoints slipRate' peakSlipRate) p.
Proof.
  intros peak. unfold peak.
  rewrite !savePeakSlipRateOutput_point.
  destruct (Nat.ltb_spec p numPaddedPoints) as [Hlt | Hge].
  - repeat split.
    + apply Rmax_l.
    + apply Rmax_r.
    + intros Hge. lia.
    + apply Rmax_left. apply Rmax_r.
    + rewrite <- !Rmax_assoc. f_equal. apply Rmax_comm.
  - repeat split; try lra; intros; try lia; reflexivity.
Qed.

Lemma savePeakSlipRateOutput_running_maximum_witness :
  let peak1 := Common.savePeakSlipRateOutput 1 (fun _ => 1 / 5) (fun _ => 0) in
  let peak2 := Common.savePeakSlipRateOutput 1 (fun _ => 1 / 2) peak1 in
  let peak3 := Common.savePeakSlipRateOutput 1 (fun _ => 1 / 10) peak2 in
  peak3 0%nat = Rmax (peak2 0%nat) (1 / 10) /\ 1 / 10 <= peak3 0%nat.
Proof.
  intros peak1 peak2 peak3.
  pose proof (savePeakSlipRateOutput_running_maximum 1 (fun _ => 1 / 10)
                (fun _ => 0) peak2 0) as Hmax.
  cbv zeta in Hmax. fold peak3 in Hmax.
  destruct Hmax as (_ & Hin & _).
  apply Hin. lia.
Defined.

Lemma saveRuptureFrontOutput_point
    (numPaddedPoints : nat) (pending : nat -> bool)
    (time slipRate : nat -> real) (now : real) (p : nat) :
  let r :=
    Common.saveRuptureFrontOutput numPaddedPoints pending time slipRate now in
  let fires :=
    Nat.ltb p numPaddedPoints && pending p &&
    Rgtb (slipRate p) Common.ruptureFrontThreshold in
  fst r p = (if fires then false else pending p) /\
  snd r p = (if fires then now else time p).
Proof.
  unfold Common.saveRuptureFrontOutput. revert p.
  induction numPaddedPoints as [| k IH]; intros p; [split; reflexivity |].
  simpl forLoop.
  destruct (forLoop k _ _) as [pend tm] eqn:Hloop. simpl in IH.
  unfold Common.saveRuptureFrontOutput_body.
  destruct (IH k) as (Hpk & _).
  rewrite Nat.ltb_irrefl in Hpk. cbn [andb] in Hpk. rewrite Hpk.
  destruct (IH p) as (Hpp & Htp).
  destruct (pending k) eqn:Hk;
    [destruct (Rgtb (slipRate k) Common.ruptureFrontThreshold) eqn:Hgt |];
    cbn [fst snd]; unfold store1; rewrite Hpp, Htp;
    case_indices; try lia; rewrite ?Hk, ?Hgt; cbn [andb];
    try (split; reflexivity).
  all: assert (Hpk' : p = k) by lia; subst p; rewrite ?Hk, ?Hgt;
    split; reflexivity.
Qed.

(** X11. One call of [saveRuptureFrontOutput].  A pending point whose slip
    rate is strictly above [0.001] gets the time of the call and loses its
    flag; a pending point whose slip rate is at most [0.001] (the threshold
    itself included) stays pending with its time unchanged; points past
    [numPaddedPoints] are not looked at. *)
Theorem saveRuptureFrontOutput_threshold
    (numPaddedPoints : nat) (pending : nat -> bool)
    (time slipRate : nat -> real) (now : real) (p : nat) :
  let r :=
    Common.saveRuptureFrontOutput numPaddedPoints pending time slipRate now in
  ((p < numPaddedPoints)%nat -> pending p = true -> slipRate p > 1 / 1000 ->
   fst r p = false /\ snd r p = now) /\
  (pending p = true -> slipRate p <= 1 / 1000 ->
   fst r p = true /\ snd r p = time p) /\
  ((numPaddedPoints <= p)%nat -> fst r p = pending p /\ snd r p = time p).
Proof.
  intros r.
  destruct (saveRuptureFrontOutput_point numPaddedPoints pending time
              slipRate now p) as (Hf & Ht).
  fold r in Hf, Ht. rewrite Hf, Ht.
  split; [| split].
  - intros Hp Hpend Hgt.
    destruct (Nat.ltb_spec p numPaddedPoints); [| lia].
    rewrite Hpend, Rgtb_true by exact Hgt. split; reflexivity.
  - intros Hpend Hle. rewrite Hpend, Rgtb_false by exact Hle.
    rewrite andb_false_r. split; reflexivity.
  - intros Hge.
    destruct (Nat.ltb_spec p numPaddedPoints); [lia |]. split; reflexivity.
Qed.

Lemma saveRuptureFrontOutput_threshold_witness :
  let r :=
    Common.saveRuptureFrontOutput 2 (fun _ => true) (fun _ => 0)
      (fun p => if Nat.eqb p 0 then 1 else 1 / 1000) 7 in
  (fst r 0%nat = false /\ snd r 0%nat = 7) /\
  (fst r 1%nat = true /\ snd r 1%nat = 0).
Proof.
  intros r.
  pose proof (saveRuptureFrontOutput_threshold 2 (fun _ => true) (fun _ => 0)
                (fun p => if Nat.eqb p 0 then 1 else 1 / 1000) 7 0) as H0.
  pose proof (saveRuptureFrontOutput_threshold 2 (fun _ => true) (fun _ => 0)
                (fun p => if Nat.eqb p 0 then 1 else 1 / 1000) 7 1) as H1.
  cbv zeta in H0, H1. fold r in H0, H1.
  destruct H0 as (Hfire & _). destruct H1 as (_ & Hstay & _).
  split.
  - apply Hfire; [lia | reflexivity | simpl; lra].
  - apply Hstay; [reflexivity | simpl; lra].
Defined.

Section DynamicStress.

Variable numPaddedPoints : nat.
Context {SpecT : Type}.
Variable ltsFace : nat.
Variable this : LinearSlipWeakeningLaw SpecT.

Lemma saveDynamicStressOutput_loop (k : nat) :
  let st := forLoop k (saveDynamicStressOutput_body ltsFace) this in
  (accumulatedSlipMagnitude st = accumulatedSlipMagnitude this /\
   dC st = dC this /\ mFullUpdateTime st = mFullUpdateTime this /\
   mu st = mu this /\ slipRateMagnitude st = slipRateMagnitude this) /\
  forall f p,
    let fires :=
      Nat.eqb f ltsFace && Nat.ltb p k && dynStressTimePending this f p &&
      Rgeb (Rabs (accumulatedSlipMagnitude this f p)) (dC this f p) in
    dynStressTimePending st f p =
      (if fires then false else dynStressTimePending this f p) /\
    dynStressTime st f p =
      (if fires then mFullUpdateTime this else dynStressTime this f p).
Proof.
  induction k as [| k IH].
  - simpl. split; [repeat split |].
    intros f p. rewrite andb_false_r. cbn [andb]. split; reflexivity.
  - simpl forLoop. destruct IH as ((Ha & Hc & Ht & Hm & Hr) & Hs).
    remember (forLoop k (saveDynamicStressOutput_body ltsFace) this) as st.
    unfold saveDynamicStressOutput_body.
    destruct (Hs ltsFace k) as (Hpk & _).
    rewrite Nat.ltb_irrefl, andb_false_r in Hpk. cbn [andb] in Hpk.
    rewrite Hpk, Ha, Hc.
    destruct (dynStressTimePending this ltsFace k) eqn:Hk;
      [destruct (Rgeb (Rabs (accumulatedSlipMagnitude this ltsFace k))
                   (dC this ltsFace k)) eqn:Hge |].
    + cbn -[Nat.ltb Nat.eqb Rabs].
      split; [repeat split; assumption |].
      intros f p. destruct (Hs f p) as (Hpp & Htp).
      unfold store2, store1. rewrite Ht.
      case_indices; rewrite ?Hpp, ?Htp; case_indices; try lia;
        rewrite ?Hk, ?Hge; cbn [andb]; try (split; reflexivity).
      all: assert (Hpk' : p = k) by lia; subst p; rewrite ?Hk, ?Hge;
        split; reflexivity.
    + split; [repeat split; assumption |].
      intros f p. destruct (Hs f p) as (Hpp & Htp). rewrite Hpp, Htp.
      case_indices; try lia; try (split; reflexivity).
      all: assert (Hpk' : p = k) by lia; subst p; rewrite ?Hk, ?Hge;
        cbn [andb]; split; reflexivity.
    + split; [repeat split; assumption |].
      intros f p. destruct (Hs f p) as (Hpp & Htp). rewrite Hpp, Htp.
      case_indices; try lia; try (split; reflexivity).
      all: assert (Hpk' : p = k) by lia; subst p; rewrite ?Hk;
        cbn [andb]; split; reflexivity.
Qed.

End DynamicStress.

(** X12. One call of [saveDynamicStressOutput].  A pending point of the face
    whose accumulated slip has reached the critical distance in absolute
    value, [|accumulatedSlipMagnitude| >= dC] (equality and negative slip
    included), gets the time [mFullUpdateTime] and loses its flag; in
    particular a pending point with [dC <= 0] is recorded at once.  A
    pending point below the distance stays pending with its time
    unchanged, and the points of other faces are not looked at. *)
Theorem saveDynamicStressOutput_threshold
    (numPaddedPoints : nat) {SpecT : Type}
    (this : LinearSlipWeakeningLaw SpecT) (ltsFace f p : nat) :
  let st := saveDynamicStressOutput numPaddedPoints ltsFace this in
  ((p < numPaddedPoints)%nat ->
   dynStressTimePending this ltsFace p = true ->
   (Rabs (accumulatedSlipMagnitude this ltsFace p) >= dC this ltsFace p ->
    dynStressTimePending st ltsFace p = false /\
    dynStressTime st ltsFace p = mFullUpdateTime this) /\
   (dC this ltsFace p <= 0 ->
    dynStressTimePending st ltsFace p = false /\
    dynStressTime st ltsFace p = mFullUpdateTime this) /\
   (Rabs (accumulatedSlipMagnitude this ltsFace p) < dC this ltsFace p ->
    dynStressTimePending st ltsFace p = true /\
    dynStressTime st ltsFace p = dynStressTime this ltsFace p)) /\
  (f <> ltsFace \/ (numPaddedPoints <= p)%nat ->
   dynStressTimePending st f p = dynStressTimePending this f p /\
   dynStressTime st f p = dynStressTime this f p).
Proof.
  intros st.
  destruct (saveDynamicStressOutput_loop ltsFace this numPaddedPoints)
    as (_ & Hs).
  fold (saveDynamicStressOutput numPaddedPoints ltsFace this) in Hs.
  fold st in Hs.
  split.
  - intros Hp Hpend.
    destruct (Hs ltsFace p) as (Hf & Ht). cbv zeta in Hf, Ht.
    rewrite Nat.eqb_refl, Hpend in Hf, Ht.
    destruct (Nat.ltb_spec p numPaddedPoints); [| lia].
    cbn [andb] in Hf, Ht. rewrite Hf, Ht.
    split; [| split].
    + intros Hge. rewrite Rgeb_true by exact Hge. split; reflexivity.
    + intros HdC. rewrite Rgeb_true.
      * split; reflexivity.
      * pose proof (Rabs_pos (accumulatedSlipMagnitude this ltsFace p)). lra.
    + intros Hlt. rewrite Rgeb_false by exact Hlt. split; reflexivity.
  - intros Hout. destruct (Hs f p) as (Hf & Ht). cbv zeta in Hf, Ht.
    rewrite Hf, Ht.
    destruct (Nat.eqb_spec f ltsFace) as [Heq | Hne];
      [| cbn [andb]; split; reflexivity].
    destruct (Nat.ltb_spec p numPaddedPoints) as [Hlt | Hge];
      [| cbn [andb]; split; reflexivity].
    destruct Hout as [Hf' | Hp']; [contradiction | lia].
Qed.

Lemma saveDynamicStressOutput_threshold_witness :
  let this := sampleLaw impedance2 0 (fun _ _ => - 1) zeros in
  let st := saveDynamicStressOutput 1 0 this in
  dynStressTimePending st 0%nat 0%nat = false /\
  dynStressTime st 0%nat 0%nat = mFullUpdateTime this.
Proof.
  intros this st.
  pose proof (saveDynamicStressOutput_threshold 1 this 0 0 0) as Ht.
  cbv zeta in Ht. fold st in Ht.
  destruct Ht as (Hin & _).
  destruct Hin as (Hfire & _); [lia | reflexivity |].
  apply Hfire. simpl. rewrite Rabs_left by lra. lra.
Defined.

Section Healing.

Variable numPaddedPoints : nat.
Context {SpecT : Type}.
Variable ltsFace : nat.
Variable this : LinearSlipWeakeningLaw SpecT.

Lemma instantaneousHealing_mu_loop (k : nat) :
  let st := forLoop k (instantaneousHealing_body ltsFace) this in
  (slipRateMagnitude st = slipRateMagnitude this /\ muS st = muS this) /\
  (forall f p,
     mu st f p =
     inLoop ltsFace k f p
       (if Rltb (slipRateMagnitude this ltsFace p) u0
        then muS this ltsFace p else mu this ltsFace p)
       (mu this f p)).
Proof.
  induction k as [| k IH].
  - simpl. unfold inLoop.
    repeat split; intros; rewrite ?andb_false_r; reflexivity.
  - simpl forLoop. destruct IH as ((Hr & HS) & Hmu).
    remember (forLoop k (instantaneousHealing_body ltsFace) this) as st.
    unfold instantaneousHealing_body. rewrite Hr.
    destruct (Rltb (slipRateMagnitude this ltsFace k) u0) eqn:Hlt.
    + cbn -[Nat.ltb Nat.eqb]. split; [split; assumption |].
      intros f p. rewrite HS. unfold store2, store1, inLoop in *.
      case_indices; rewrite ?Hmu, ?Hlt; case_indices; try lia; reflexivity.
    + split; [split; assumption |].
      intros f p. rewrite Hmu. unfold inLoop.
      case_indices; try lia; try reflexivity.
      assert (Hpk : p = k) by lia. subst p. rewrite Hlt. reflexivity.
Qed.

End Healing.

(** X13. [instantaneousHealing] resets a point of the face exactly when its
    slip-rate magnitude is below [u0]: there the friction coefficient
    becomes [muS] and the accumulated slip zero; at the other points of the
    face, on other faces and past [numPaddedPoints] both keep their values;
    the slip rates are not written.  Healing twice is healing once. *)
Theorem instantaneousHealing_resets
    (numPaddedPoints : nat) {SpecT : Type}
    (this : LinearSlipWeakeningLaw SpecT) (ltsFace f p : nat) :
  let st := instantaneousHealing numPaddedPoints ltsFace this in
  let twice := instantaneousHealing numPaddedPoints ltsFace st in
  ((p < numPaddedPoints)%nat ->
   (slipRateMagnitude this ltsFace p < u0 ->
    mu st ltsFace p = muS this ltsFace p /\
    accumulatedSlipMagnitude st ltsFace p = 0) /\
   (u0 <= slipRateMagnitude this ltsFace p ->
    mu st ltsFace p = mu this ltsFace p /\
    accumulatedSlipMagnitude st ltsFace p =
      accumulatedSlipMagnitude this ltsFace p)) /\
  (f <> ltsFace \/ (numPaddedPoints <= p)%nat ->
   mu st f p = mu this f p /\
   accumulatedSlipMagnitude st f p = accumulatedSlipMagnitude this f p) /\
  slipRateMagnitude st = slipRateMagnitude this /\
  mu twice f p = mu st f p /\
  accumulatedSlipMagnitude twice f p = accumulatedSlipMagnitude st f p.
Proof.
  intros st twice.
  destruct (instantaneousHealing_loop ltsFace this numPaddedPoints)
    as (Hr & Ha).
  destruct (instantaneousHealing_mu_loop ltsFace this numPaddedPoints)
    as ((_ & HS) & Hmu).
  destruct (instantaneousHealing_loop ltsFace st numPaddedPoints)
    as (_ & Ha2).
  destruct (instantaneousHealing_mu_loop ltsFace st numPaddedPoints)
    as (_ & Hmu2).
  fold (instantaneousHealing numPaddedPoints ltsFace this) in Hr, Ha, HS, Hmu.
  fold st in Hr, Ha, HS, Hmu.
  fold (instantaneousHealing numPaddedPoints ltsFace st) in Ha2, Hmu2.
  fold twice in Ha2, Hmu2.
  split; [| split; [| split; [exact Hr |]]].
  - intros Hp. rewrite Hmu, Ha, !inLoop_inside by exact Hp. split.
    + intros Hlt. rewrite Rltb_true by exact Hlt. split; reflexivity.
    + intros Hge. rewrite Rltb_false by exact Hge. split; reflexivity.
  - intros Hout. rewrite Hmu, Ha, !inLoop_outside by exact Hout.
    split; reflexivity.
  - rewrite Hmu2, Ha2, Hr, HS.
    destruct (Nat.eq_dec f ltsFace) as [-> | Hne];
      [destruct (Nat.lt_ge_cases p numPaddedPoints) as [Hlt | Hge] |].
    + rewrite !inLoop_inside by exact Hlt.
      rewrite Hmu, Ha, !inLoop_inside by exact Hlt.
      destruct (Rltb (slipRateMagnitude this ltsFace p) u0);
        split; reflexivity.
    + rewrite !inLoop_outside by (right; exact Hge). split; reflexivity.
    + rewrite !inLoop_outside by (left; exact Hne). split; reflexivity.
Qed.

Lemma instantaneousHealing_resets_witness :
  let this := sampleLaw impedance2 0 (fun _ _ => 1) zeros in
  let st := instantaneousHealing 1 0 this in
  mu st 0%nat 0%nat = muS this 0%nat 0%nat /\
  accumulatedSlipMagnitude st 0%nat 0%nat = 0.
Proof.
  intros this st.
  pose proof (instantaneousHealing_resets 1 this 0 0 0) as Hh.
  cbv zeta in Hh. fold st in Hh.
  destruct Hh as (Hin & _).
  destruct Hin as (Hreset & _); [lia |].
  apply Hreset. unfold u0, zeros. simpl slipRateMagnitude.
  apply Rdiv_lt_0_compat; [lra |]. apply pow_lt. lra.
Defined.

(** *** [saveAverageSlipOutput], once more *)

Lemma sumOverBoundaryPoints_plus (n : nat) (f g : nat -> real) :
  sumOverBoundaryPoints n (fun p => f p + g p) =
  sumOverBoundaryPoints n f + sumOverBoundaryPoints n g.
Proof.
  rewrite <- !forLoop_sum.
  induction n as [| n IH]; simpl; [ring | rewrite IH; ring].
Qed.

Lemma sumOverBoundaryPoints_const (n : nat) (c : real) :
  sumOverBoundaryPoints n (fun _ => c) = INR n * c.
Proof.
  rewrite <- forLoop_sum.
  induction n as [| n IH]; [simpl; ring |].
  simpl forLoop. rewrite IH, S_INR. ring.
Qed.

(** X14. [saveAverageSlipOutput] is additive in the slip buffer:
    accumulating the buffers [a] and [b] one after the other gives the same
    [averagedSlip] as accumulating their pointwise sum once.  With at least
    one boundary point, a buffer that holds the same value [c] at every
    boundary point adds exactly [c]. *)
Theorem saveAverageSlipOutput_additive
    (numberOfBoundaryGaussPoints : nat) (a b : nat -> real)
    (c averagedSlip : real) :
  Common.saveAverageSlipOutput numberOfBoundaryGaussPoints b
    (Common.saveAverageSlipOutput numberOfBoundaryGaussPoints a averagedSlip)
  = Common.saveAverageSlipOutput numberOfBoundaryGaussPoints
      (fun p => a p + b p) averagedSlip /\
  ((0 < numberOfBoundaryGaussPoints)%nat ->
   (forall p, (p < numberOfBoundaryGaussPoints)%nat -> a p = c) ->
   Common.saveAverageSlipOutput numberOfBoundaryGaussPoints a averagedSlip =
   averagedSlip + c).
Proof.
  unfold Common.saveAverageSlipOutput. rewrite !forLoop_sum.
  split.
  - rewrite sumOverBoundaryPoints_plus. unfold Rdiv. ring.
  - intros Hn Hconst.
    rewrite (sumOverBoundaryPoints_ext _ a (fun _ => c) Hconst).
    rewrite sumOverBoundaryPoints_const. field.
    apply not_0_INR. lia.
Qed.

Lemma saveAverageSlipOutput_additive_witness :
  Common.saveAverageSlipOutput 4 sampleTmpSlip 10 = 10 + 1.
Proof.
  apply (saveAverageSlipOutput_additive 4 sampleTmpSlip sampleTmpSlip 1 10).
  - lia.
  - intros p Hp. unfold sampleTmpSlip.
    destruct (Nat.ltb_spec p 4); [reflexivity | lia].
Defined.

(** *** The two kernels of [struct Common] around the friction law *)

Section Precompute.

Variable numPaddedPoints CONVERGENCE_ORDER : nat.
Variable computeTheta_execute :
  list real -> list real -> list real -> list real -> list real ->
  (nat -> nat -> real) -> nat -> nat -> real.
Variable impedanceMatrices : ImpedanceMatrices.
Variables qInterpolatedPlus qInterpolatedMinus : nat -> list real.

Lemma copyFaultStresses_loop
    (thetaView : nat -> nat -> real) (o : nat)
    (faultStresses : FaultStresses.t) (k : nat) :
  let fs :=
    forLoop k (Common.copyFaultStresses_body thetaView o) faultStresses in
  forall o' i,
    FaultStresses.normalStress fs o' i =
      inLoop o k o' i (thetaView i 0%nat)
        (FaultStresses.normalStress faultStresses o' i) /\
    FaultStresses.traction1 fs o' i =
      inLoop o k o' i (thetaView i 1%nat)
        (FaultStresses.traction1 faultStresses o' i) /\
    FaultStresses.traction2 fs o' i =
      inLoop o k o' i (thetaView i 2%nat)
        (FaultStresses.traction2 faultStresses o' i).
Proof.
  induction k as [| k IH].
  - simpl. intros o' i. unfold inLoop. rewrite andb_false_r.
    repeat split.
  - cbv zeta in *. simpl forLoop. intros o' i.
    destruct (IH o' i) as (Hn & H1 & H2).
    remember (forLoop k (Common.copyFaultStresses_body thetaView o)
                faultStresses) as fs0.
    unfold Common.copyFaultStresses_body.
    cbn [FaultStresses.normalStress FaultStresses.traction1
         FaultStresses.traction2].
    unfold store2, store1, inLoop in *.
    case_indices; rewrite ?Hn, ?H1, ?H2; case_indices; try lia;
      repeat split.
Qed.

Lemma precompute_loop (faultStresses : FaultStresses.t) (k : nat) :
  let r :=
    forLoop k
      (Common.precompute_body numPaddedPoints computeTheta_execute
         impedanceMatrices qInterpolatedPlus qInterpolatedMinus)
      (faultStresses, fun _ _ => 0) in
  snd r =
    forLoop k
      (fun o' thetaBuffer =>
         computeTheta_execute (impedanceNeig impedanceMatrices)
           (impedance impedanceMatrices) (eta impedanceMatrices)
           (qInterpolatedPlus o') (qInterpolatedMinus o') thetaBuffer)
      (fun _ _ => 0) /\
  forall o i,
    let theta :=
      thetaOfSubInterval computeTheta_execute impedanceMatrices
        qInterpolatedPlus qInterpolatedMinus o in
    let inside := Nat.ltb o k && Nat.ltb i numPaddedPoints in
    FaultStresses.normalStress (fst r) o i =
      (if inside then theta i 0%nat
       else FaultStresses.normalStress faultStresses o i) /\
    FaultStresses.traction1 (fst r) o i =
      (if inside then theta i 1%nat
       else FaultStresses.traction1 faultStresses o i) /\
    FaultStresses.traction2 (fst r) o i =
      (if inside then theta i 2%nat
       else FaultStresses.traction2 faultStresses o i).
Proof.
  induction k as [| k IH].
  - simpl. split; [reflexivity |]. intros o i. repeat split.
  - simpl forLoop. destruct IH as (Hth & Hfs).
    destruct (forLoop k _ (faultStresses, _)) as [fs th]. simpl in Hth, Hfs.
    unfold Common.precompute_body. cbn [fst snd].
    split; [rewrite Hth; reflexivity |].
    intros o i.
    destruct (copyFaultStresses_loop
                (computeTheta_execute (impedanceNeig impedanceMatrices)
                   (impedance impedanceMatrices) (eta impedanceMatrices)
                   (qInterpolatedPlus k) (qInterpolatedMinus k) th)
                k fs numPaddedPoints o i) as (Hn & H1 & H2).
    destruct (Hfs o i) as (Gn & G1 & G2).
    rewrite Hn, H1, H2, Gn, G1, G2. unfold inLoop.
    unfold thetaOfSubInterval. simpl forLoop. rewrite Hth.
    case_indices; try lia; repeat split.
Qed.

End Precompute.


(** X15. [precomputeStressFromQInterpolated] overwrites the three stress
    arrays for every time sub-interval below [CONVERGENCE_ORDER] and every
    point below [numPaddedPoints] with columns [0], [1], [2] of the
    [theta] that [computeTheta] leaves for that sub-interval, whatever the
    arrays held before, and changes no entry outside that range. *)
Theorem precomputeStressFromQInterpolated_outputs
    (numPaddedPoints CONVERGENCE_ORDER : nat)
    (computeTheta_execute :
       list real -> list real -> list real -> list real -> list real ->
       (nat -> nat -> real) -> nat -> nat -> real)
    (faultStresses : FaultStresses.t) (impedanceMatrices : ImpedanceMatrices)
    (qInterpolatedPlus qInterpolatedMinus : nat -> list real) (o i : nat) :
  let out :=
    Common.precomputeStressFromQInterpolated numPaddedPoints
      CONVERGENCE_ORDER computeTheta_execute faultStresses impedanceMatrices
      qInterpolatedPlus qInterpolatedMinus in
  let theta :=
    thetaOfSubInterval computeTheta_execute impedanceMatrices
      qInterpolatedPlus qInterpolatedMinus o in
  ((o < CONVERGENCE_ORDER)%nat -> (i < numPaddedPoints)%nat ->
   FaultStresses.normalStress out o i = theta i 0%nat /\
   FaultStresses.traction1 out o i = theta i 1%nat /\
   FaultStresses.traction2 out o i = theta i 2%nat) /\
  ((CONVERGENCE_ORDER <= o)%nat \/ (numPaddedPoints <= i)%nat ->
   FaultStresses.normalStress out o i =
     FaultStresses.normalStress faultStresses o i /\
   FaultStresses.traction1 out o i =
     FaultStresses.traction1 faultStresses o i /\
   FaultStresses.traction2 out o i =
     FaultStresses.traction2 faultStresses o i).
Proof.
  intros out theta.
  destruct (precompute_loop numPaddedPoints computeTheta_execute
              impedanceMatrices qInterpolatedPlus qInterpolatedMinus
              faultStresses CONVERGENCE_ORDER) as (_ & Hfs).
  destruct (Hfs o i) as (Hn & H1 & H2). cbv zeta in Hn, H1, H2.
  fold theta in Hn, H1, H2.
  unfold out, Common.precomputeStressFromQInterpolated.
  rewrite Hn, H1, H2.
  split.
  - intros Ho Hi.
    destruct (Nat.ltb_spec o CONVERGENCE_ORDER); [| lia].
    destruct (Nat.ltb_spec i numPaddedPoints); [| lia].
    repeat split.
  - intros Hout.
    destruct (Nat.ltb_spec o CONVERGENCE_ORDER);
      destruct (Nat.ltb_spec i numPaddedPoints); cbn [andb];
      try (repeat split; fail).
    destruct Hout; lia.
Qed.

Lemma precomputeStressFromQInterpolated_outputs_witness :
  let out :=
    Common.precomputeStressFromQInterpolated 2 2 sampleComputeTheta
      sampleFaultStresses sampleImpedanceMatrices
      (fun o => [INR o]) (fun _ => [7]) in
  FaultStresses.normalStress out 1%nat 1%nat =
    thetaOfSubInterval sampleComputeTheta sampleImpedanceMatrices
      (fun o => [INR o]) (fun _ => [7]) 1 1%nat 0%nat /\
  FaultStresses.normalStress out 2%nat 1%nat =
    FaultStresses.normalStress sampleFaultStresses 2%nat 1%nat.
Proof.
  intros out.
  pose proof (precomputeStressFromQInterpolated_outputs 2 2
                sampleComputeTheta sampleFaultStresses
                sampleImpedanceMatrices (fun o => [INR o]) (fun _ => [7])
                1 1) as Hin.
  pose proof (precomputeStressFromQInterpolated_outputs 2 2
                sampleComputeTheta sampleFaultStresses
                sampleImpedanceMatrices (fun o => [INR o]) (fun _ => [7])
                2 1) as Hout.
  cbv zeta in Hin, Hout. fold out in Hin, Hout.
  destruct Hin as (Hin & _). destruct Hout as (_ & Hout).
  split.
  - apply Hin; lia.
  - apply Hout. left. lia.
Defined.




Section Sides.

Variable numPaddedPoints : nat.
Variables kernelM kernelM' kernelP kernelP' :
  list real -> (nat -> nat -> real) -> list real -> real ->
  list real -> list real.
Variable faultStresses : FaultStresses.t.
Variable tractionResults : TractionResults.t.
Variables matrices matrices' : ImpedanceMatrices.
Variables qPlus qPlus' qMinus qMinus' : nat -> list real.
Variable timeWeights : nat -> real.



End Sides.



(** *** [LoopStatistics] *)

Lemma listStore_length {A : Type} (l : list A) (i : nat) (v : A) :
  length (listStore l i v) = length l.
Proof.
  revert i. induction l as [| x l IH]; intros i; [reflexivity |].
  destruct i as [| i]; simpl; [reflexivity | now rewrite IH].
Qed.

Lemma nth_error_listStore_same {A : Type} (l : list A) (i : nat) (v : A) :
  (i < length l)%nat -> nth_error (listStore l i v) i = Some v.
Proof.
  revert i. induction l as [| x l IH]; intros i Hi; simpl in Hi; [lia |].
  destruct i as [| i]; simpl; [reflexivity | apply IH; lia].
Qed.

Lemma nth_error_listStore_other {A : Type} (l : list A) (i j : nat) (v : A) :
  j <> i -> nth_error (listStore l i v) j = nth_error l j.
Proof.
  revert i j. induction l as [| x l IH]; intros i j Hne; [reflexivity |].
  destruct i as [| i]; destruct j as [| j]; simpl; try reflexivity;
    try contradiction.
  apply IH. lia.
Qed.

Lemma nth_error_in_range {A : Type} (l : list A) (i : nat) :
  (i < length l)%nat -> exists x, nth_error l i = Some x.
Proof.
  intros Hi. destruct (nth_error l i) as [x |] eqn:Hx; [now exists x |].
  apply nth_error_None in Hx. lia.
Qed.

Lemma find_le (name : String.string) (regions : list String.string) :
  (LoopStatistics.find name regions <= length regions)%nat.
Proof.
  induction regions as [| r rest IH]; simpl; [lia |].
  destruct (String.eqb r name); lia.
Qed.

Lemma find_found (name : String.string) (regions : list String.string) :
  (LoopStatistics.find name regions < length regions)%nat ->
  nth_error regions (LoopStatistics.find name regions) = Some name /\
  forall j, (j < LoopStatistics.find name regions)%nat ->
            nth_error regions j <> Some name.
Proof.
  induction regions as [| r rest IH]; simpl; [lia |].
  destruct (String.eqb_spec r name) as [-> | Hne]; intros Hlt.
  - split; [reflexivity | intros j Hj; lia].
  - destruct IH as (Hnth & Hfirst); [lia |]. split; [exact Hnth |].
    intros [| j] Hj; simpl.
    + intros Heq. injection Heq as Heq. contradiction.
    + apply Hfirst. lia.
Qed.

Lemma find_missing (name : String.string) (regions : list String.string) :
  LoopStatistics.find name regions = length regions <-> ~ In name regions.
Proof.
  induction regions as [| r rest IH]; simpl.
  - split; [intros _ [] | reflexivity].
  - destruct (String.eqb_spec r name) as [-> | Hne].
    + split; [discriminate | intros Hnot; exfalso; apply Hnot; now left].
    + split.
      * intros Heq [Hr | Hin]; [contradiction |].
        apply IH in Hin; [exact Hin | lia].
      * intros Hnot. f_equal. apply IH. intros Hin. apply Hnot. now right.
Qed.

Lemma find_app (name other : String.string) (regions : list String.string) :
  LoopStatistics.find name (regions ++ [other]) =
  if Nat.ltb (LoopStatistics.find name regions) (length regions)
  then LoopStatistics.find name regions
  else if String.eqb other name then length regions
       else S (length regions).
Proof.
  induction regions as [| r rest IH]; simpl.
  - destruct (String.eqb other name); reflexivity.
  - destruct (String.eqb r name); [reflexivity |].
    rewrite IH. change (S (LoopStatistics.find name rest) <? S (length rest))
      with (LoopStatistics.find name rest <? length rest).
    destruct (LoopStatistics.find name rest <? length rest);
      [reflexivity |].
    destruct (String.eqb other name); reflexivity.
Qed.

(** X18. [getRegion] returns the index of the first region of that name:
    the region list holds the name there and at no smaller index.  The
    assertion fails exactly when no region has the name, in particular on
    an object without regions. *)
Theorem getRegion_first_index
    (name : String.string) (this : LoopStatistics.t) :
  (forall i, LoopStatistics.getRegion name this = Some i ->
     nth_error (LoopStatistics.m_regions this) i = Some name /\
     forall j, (j < i)%nat ->
       nth_error (LoopStatistics.m_regions this) j <> Some name) /\
  (LoopStatistics.getRegion name this = None <->
   ~ In name (LoopStatistics.m_regions this)) /\
  LoopStatistics.getRegion name LoopStatistics.empty = None.
Proof.
  unfold LoopStatistics.getRegion.
  pose proof (find_le name (LoopStatistics.m_regions this)) as Hle.
  split; [| split; [| reflexivity]].
  - intros i.
    destruct (Nat.ltb_spec (LoopStatistics.find name
                              (LoopStatistics.m_regions this))
                (length (LoopStatistics.m_regions this))) as [Hlt | Hge];
      [| discriminate].
    intros Hi. injection Hi as <-. apply find_found. exact Hlt.
  - destruct (Nat.ltb_spec (LoopStatistics.find name
                              (LoopStatistics.m_regions this))
                (length (LoopStatistics.m_regions this))) as [Hlt | Hge].
    + split; [discriminate |]. intros Hnot.
      apply find_missing in Hnot. lia.
    + split; [| reflexivity]. intros _. apply find_missing. lia.
Qed.

Lemma getRegion_first_index_witness :
  let stats :=
    LoopStatistics.addRegion "solve"%string true
      (LoopStatistics.addRegion "io"%string false LoopStatistics.empty) in
  nth_error (LoopStatistics.m_regions stats) 1 = Some "solve"%string.
Proof.
  intros stats.
  apply (getRegion_first_index "solve"%string stats). reflexivity.
Defined.

(** X19. [addRegion] and [getRegion].  After [addRegion(name)] the name is
    found: at the index it already had if a region of that name existed
    (the new, second region of the name cannot be reached by name), and
    otherwise at the new last index, the former number of regions.  The
    lookup of every other name is unchanged. *)
Theorem addRegion_getRegion
    (name other : String.string) (includeInSummary : bool)
    (this : LoopStatistics.t) :
  LoopStatistics.getRegion name
    (LoopStatistics.addRegion name includeInSummary this) =
    Some (match LoopStatistics.getRegion name this with
          | Some i => i
          | None => length (LoopStatistics.m_regions this)
          end) /\
  (other <> name ->
   LoopStatistics.getRegion other
     (LoopStatistics.addRegion name includeInSummary this) =
   LoopStatistics.getRegion other this).
Proof.
  unfold LoopStatistics.getRegion, LoopStatistics.addRegion.
  cbn [LoopStatistics.m_regions].
  rewrite !find_app, !length_app. cbn [length].
  split.
  - rewrite String.eqb_refl.
    destruct (Nat.ltb_spec (LoopStatistics.find name
                              (LoopStatistics.m_regions this))
                (length (LoopStatistics.m_regions this))) as [Hlt | Hge].
    + destruct (Nat.ltb_spec (LoopStatistics.find name
                                (LoopStatistics.m_regions this))
                  (length (LoopStatistics.m_regions this) + 1)); [| lia].
      reflexivity.
    + destruct (Nat.ltb_spec (length (LoopStatistics.m_regions this))
                  (length (LoopStatistics.m_regions this) + 1)); [| lia].
      reflexivity.
  - intros Hne.
    destruct (String.eqb_spec name other) as [Heq | _];
      [symmetry in Heq; contradiction |].
    destruct (Nat.ltb_spec (LoopStatistics.find other
                              (LoopStatistics.m_regions this))
                (length (LoopStatistics.m_regions this))) as [Hlt | Hge].
    + destruct (Nat.ltb_spec (LoopStatistics.find other
                                (LoopStatistics.m_regions this))
                  (length (LoopStatistics.m_regions this) + 1)); [| lia].
      reflexivity.
    + destruct (Nat.ltb_spec (S (length (LoopStatistics.m_regions this)))
                  (length (LoopStatistics.m_regions this) + 1)); [lia |].
      reflexivity.
Qed.

Lemma addRegion_getRegion_witness :
  let stats := LoopStatistics.addRegion "io"%string false LoopStatistics.empty in
  LoopStatistics.getRegion "io"%string
    (LoopStatistics.addRegion "solve"%string true stats) =
  LoopStatistics.getRegion "io"%string stats.
Proof.
  intros stats.
  apply (addRegion_getRegion "solve"%string "io"%string true stats).
  discriminate.
Defined.

Lemma pushSample_some
    (region : nat) (sample : LoopStatistics.Sample) (this : LoopStatistics.t) :
  (region < length (LoopStatistics.m_times this))%nat ->
  exists samples,
    nth_error (LoopStatistics.m_times this) region = Some samples /\
    LoopStatistics.pushSample region sample this =
    Some (LoopStatistics.mk (LoopStatistics.m_begin this)
            (LoopStatistics.m_regions this)
            (listStore (LoopStatistics.m_times this) region
               (samples ++ [sample]))
            (LoopStatistics.m_includeInSummary this)).
Proof.
  intros Hr. destruct (nth_error_in_range _ _ Hr) as [samples Hs].
  exists samples. split; [exact Hs |].
  unfold LoopStatistics.pushSample. rewrite Hs. reflexivity.
Qed.

Lemma pushSample_none
    (region : nat) (sample : LoopStatistics.Sample) (this : LoopStatistics.t) :
  (length (LoopStatistics.m_times this) <= region)%nat ->
  LoopStatistics.pushSample region sample this = None.
Proof.
  intros Hr. unfold LoopStatistics.pushSample.
  apply nth_error_None in Hr. rewrite Hr. reflexivity.
Qed.

(** X20. The four vectors of a [LoopStatistics] keep one entry per region:
    this holds for the default-constructed object, [addRegion] keeps it and
    adds one region, and on such an object [begin], [end] and [addSample]
    stay within the vectors exactly for a region index below the number of
    regions, in which case they keep it too and leave the region names as
    they are. *)
Theorem LoopStatistics_aligned
    (this : LoopStatistics.t) (name : String.string) (include : bool)
    (region numIters subRegion : nat) (t1 t2 : LoopStatistics.timespec) :
  LoopStatistics.aligned LoopStatistics.empty /\
  (LoopStatistics.aligned this ->
   LoopStatistics.aligned (LoopStatistics.addRegion name include this) /\
   length (LoopStatistics.m_regions
             (LoopStatistics.addRegion name include this)) =
     S (length (LoopStatistics.m_regions this)) /\
   forall op,
     op = LoopStatistics.begin region t1 \/
     op = LoopStatistics.end_ region numIters subRegion t2 \/
     op = LoopStatistics.addSample region numIters subRegion t1 t2 ->
     ((region < length (LoopStatistics.m_regions this))%nat ->
      exists next,
        op this = Some next /\ LoopStatistics.aligned next /\
        LoopStatistics.m_regions next = LoopStatistics.m_regions this) /\
     ((length (LoopStatistics.m_regions this) <= region)%nat ->
      op this = None)).
Proof.
  split; [repeat split |].
  intros (Hb & Ht & Hi).
  split; [| split].
  - unfold LoopStatistics.aligned, LoopStatistics.addRegion.
    cbn [LoopStatistics.m_begin LoopStatistics.m_regions
         LoopStatistics.m_times LoopStatistics.m_includeInSummary].
    rewrite !length_app. cbn [length]. lia.
  - unfold LoopStatistics.addRegion. cbn [LoopStatistics.m_regions].
    rewrite length_app. cbn [length]. lia.
  - intros op Hop. split.
    + intros Hr.
      assert (Hrb : (region < length (LoopStatistics.m_begin this))%nat)
        by lia.
      assert (Hrt : (region < length (LoopStatistics.m_times this))%nat)
        by lia.
      destruct (nth_error_in_range _ _ Hrb) as [started Hstarted].
      destruct Hop as [-> | [-> | ->]].
      * unfold LoopStatistics.begin. rewrite Hstarted.
        eexists. split; [reflexivity |]. split; [| reflexivity].
        unfold LoopStatistics.aligned.
        cbn [LoopStatistics.m_begin LoopStatistics.m_regions
             LoopStatistics.m_times LoopStatistics.m_includeInSummary].
        rewrite listStore_length. repeat split; assumption.
      * unfold LoopStatistics.end_. rewrite Hstarted.
        destruct (pushSample_some region
                    (LoopStatistics.mkSample started t2 numIters subRegion)
                    this Hrt) as (samples & _ & ->).
        eexists. split; [reflexivity |]. split; [| reflexivity].
        unfold LoopStatistics.aligned.
        cbn [LoopStatistics.m_begin LoopStatistics.m_regions
             LoopStatistics.m_times LoopStatistics.m_includeInSummary].
        rewrite listStore_length. repeat split; assumption.
      * unfold LoopStatistics.addSample.
        destruct (pushSample_some region
                    (LoopStatistics.mkSample t1 t2 numIters subRegion)
                    this Hrt) as (samples & _ & ->).
        eexists. split; [reflexivity |]. split; [| reflexivity].
        unfold LoopStatistics.aligned.
        cbn [LoopStatistics.m_begin LoopStatistics.m_regions
             LoopStatistics.m_times LoopStatistics.m_includeInSummary].
        rewrite listStore_length. repeat split; assumption.
    + intros Hr.
      assert (Hnb : nth_error (LoopStatistics.m_begin this) region = None)
        by (apply nth_error_None; lia).
      destruct Hop as [-> | [-> | ->]].
      * unfold LoopStatistics.begin. rewrite Hnb. reflexivity.
      * unfold LoopStatistics.end_. rewrite Hnb. reflexivity.
      * unfold LoopStatistics.addSample. apply pushSample_none. lia.
Qed.

Lemma LoopStatistics_aligned_witness :
  let stats := LoopStatistics.addRegion "io"%string false LoopStatistics.empty in
  LoopStatistics.aligned
    (LoopStatistics.addRegion "solve"%string true stats) /\
  LoopStatistics.begin 1 (LoopStatistics.mkTimespec 3 0) stats = None.
Proof.
  intros stats.
  pose proof (LoopStatistics_aligned stats "solve"%string true 1 0 0
                (LoopStatistics.mkTimespec 3 0)
                (LoopStatistics.mkTimespec 4 0)) as (_ & Hal).
  destruct Hal as (Hadd & _ & Hops).
  - repeat split.
  - split; [exact Hadd |].
    apply (Hops (LoopStatistics.begin 1 (LoopStatistics.mkTimespec 3 0))).
    + left. reflexivity.
    + simpl. lia.
Defined.

(** X21. Timing a region.  On an object with one entry per region and a
    region index below the number of regions, [begin] at clock reading
    [t1] followed by [end] at clock reading [t2] succeeds and appends to
    the samples of that region one sample that starts at [t1], ends at
    [t2] and carries the iteration count and sub-region of the call; the
    samples of every other region are as before. *)
Theorem begin_end_records_sample
    (this : LoopStatistics.t) (region numIterations subRegion : nat)
    (t1 t2 : LoopStatistics.timespec) :
  LoopStatistics.aligned this ->
  (region < length (LoopStatistics.m_regions this))%nat ->
  exists started finished samples,
    LoopStatistics.begin region t1 this = Some started /\
    LoopStatistics.end_ region numIterations subRegion t2 started =
      Some finished /\
    nth_error (LoopStatistics.m_times this) region = Some samples /\
    nth_error (LoopStatistics.m_times finished) region =
      Some (samples ++
            [LoopStatistics.mkSample t1 t2 numIterations subRegion]) /\
    forall other, other <> region ->
      nth_error (LoopStatistics.m_times finished) other =
      nth_error (LoopStatistics.m_times this) other.
Proof.
  intros (Hb & Ht & _) Hr.
  assert (Hrb : (region < length (LoopStatistics.m_begin this))%nat) by lia.
  assert (Hrt : (region < length (LoopStatistics.m_times this))%nat) by lia.
  destruct (nth_error_in_range _ _ Hrb) as [old Hold].
  destruct (nth_error_in_range _ _ Hrt) as [samples Hsamples].
  unfold LoopStatistics.begin. rewrite Hold.
  eexists. eexists. exists samples.
  split; [reflexivity |].
  unfold LoopStatistics.end_, LoopStatistics.pushSample.
  cbn [LoopStatistics.m_begin LoopStatistics.m_times].
  rewrite nth_error_listStore_same by exact Hrb. rewrite Hsamples.
  split; [reflexivity |]. split; [reflexivity |].
  cbn [LoopStatistics.m_times]. split.
  - apply nth_error_listStore_same. exact Hrt.
  - intros other Hne. apply nth_error_listStore_other. exact Hne.
Qed.

Lemma begin_end_records_sample_witness :
  let stats := LoopStatistics.addRegion "io"%string false LoopStatistics.empty in
  exists started finished samples,
    LoopStatistics.begin 0 (LoopStatistics.mkTimespec 3 0) stats =
      Some started /\
    LoopStatistics.end_ 0 5 1 (LoopStatistics.mkTimespec 4 0) started =
      Some finished /\
    nth_error (LoopStatistics.m_times stats) 0 = Some samples /\
    nth_error (LoopStatistics.m_times finished) 0 =
      Some (samples ++
            [LoopStatistics.mkSample (LoopStatistics.mkTimespec 3 0)
               (LoopStatistics.mkTimespec 4 0) 5 1]) /\
    forall other, other <> 0%nat ->
      nth_error (LoopStatistics.m_times finished) other =
      nth_error (LoopStatistics.m_times stats) other.
Proof.
  intros stats.
  apply (begin_end_records_sample stats 0 5 1
           (LoopStatistics.mkTimespec 3 0) (LoopStatistics.mkTimespec 4 0)).
  - repeat split.
  - simpl. lia.
Defined.

(** X22. [addSample] appends the given sample to the samples of its region
    and to no other; a region added by [addRegion] starts with no samples,
    a zero start time and the given summary flag, and the entries of the
    regions that existed before are as they were. *)
Theorem addSample_addRegion_entries
    (this : LoopStatistics.t) (name : String.string) (include : bool)
    (region numIters subRegion : nat) (t1 t2 : LoopStatistics.timespec) :
  LoopStatistics.aligned this ->
  let added := LoopStatistics.addRegion name include this in
  let last := length (LoopStatistics.m_regions this) in
  (nth_error (LoopStatistics.m_regions added) last = Some name /\
   nth_error (LoopStatistics.m_times added) last = Some [] /\
   nth_error (LoopStatistics.m_begin added) last =
     Some (LoopStatistics.mkTimespec 0 0) /\
   nth_error (LoopStatistics.m_includeInSummary added) last = Some include /\
   forall r, (r < last)%nat ->
     nth_error (LoopStatistics.m_regions added) r =
       nth_error (LoopStatistics.m_regions this) r /\
     nth_error (LoopStatistics.m_times added) r =
       nth_error (LoopStatistics.m_times this) r) /\
  ((region < last)%nat ->
   exists next samples,
     LoopStatistics.addSample region numIters subRegion t1 t2 this =
       Some next /\
     nth_error (LoopStatistics.m_times this) region = Some samples /\
     nth_error (LoopStatistics.m_times next) region =
       Some (samples ++ [LoopStatistics.mkSample t1 t2 numIters subRegion]) /\
     forall other, other <> region ->
       nth_error (LoopStatistics.m_times next) other =
       nth_error (LoopStatistics.m_times this) other).
Proof.
  intros (Hb & Ht & Hi) added last. split.
  - unfold added, LoopStatistics.addRegion.
    cbn [LoopStatistics.m_begin LoopStatistics.m_regions
         LoopStatistics.m_times LoopStatistics.m_includeInSummary].
    unfold last.
    split; [| split; [| split; [| split]]].
    + rewrite nth_error_app2 by lia. rewrite Nat.sub_diag. reflexivity.
    + rewrite nth_error_app2 by lia. rewrite Ht, Nat.sub_diag. reflexivity.
    + rewrite nth_error_app2 by lia. rewrite Hb, Nat.sub_diag. reflexivity.
    + rewrite nth_error_app2 by lia. rewrite Hi, Nat.sub_diag. reflexivity.
    + intros r Hlast. split; apply nth_error_app1; lia.
  - intros Hr.
    assert (Hrt : (region < length (LoopStatistics.m_times this))%nat)
      by (unfold last in Hr; lia).
    destruct (pushSample_some region
                (LoopStatistics.mkSample t1 t2 numIters subRegion) this Hrt)
      as (samples & Hs & Hpush).
    unfold LoopStatistics.addSample. rewrite Hpush.
    eexists. exists samples. split; [reflexivity |]. split; [exact Hs |].
    cbn [LoopStatistics.m_times]. split.
    + apply nth_error_listStore_same. exact Hrt.
    + intros other Hne. apply nth_error_listStore_other. exact Hne.
Qed.

Lemma addSample_addRegion_entries_witness :
  let stats := LoopStatistics.addRegion "io"%string false LoopStatistics.empty in
  nth_error
    (LoopStatistics.m_times (LoopStatistics.addRegion "solve"%string true stats))
    1 = Some [].
Proof.
  intros stats.
  pose proof (addSample_addRegion_entries stats "solve"%string true 0 0 0
                (LoopStatistics.mkTimespec 0 0)
                (LoopStatistics.mkTimespec 0 0)) as Ha.
  destruct Ha as ((_ & Htimes & _) & _).
  - repeat split.
  - exact Htimes.
Defined.
